(** * initial_indexer: Korean word extraction and choseong indexing

    A shallow embedding of [initial_test.py] (classes
    [KoreanMorphemeAnalyzer], [KoreanChoseongExtractor] and
    [OpenSearchWordIndexer]) and of the in-memory pipeline of
    [morpheme_test.py], with the properties stated about them.

    Python [str] values are sequences of Unicode code points and are
    modelled as [list Z]; [ord] is the identity.  Functions that can raise
    return a [result]; code that logs or talks to the OpenSearch client runs
    in a small state-and-exception monad over a [world] that records the
    log lines and the client calls. *)

From Stdlib Require Import ZArith List Bool Lia.
From stdpp Require Import base decidable option list gmap.

Local Open Scope Z_scope.

(** ** Python values and exceptions *)

Inductive exn : Type :=
| IndexError
| ExternalError (code : Z).

Inductive result (A : Type) : Type :=
| Ok (a : A)
| Raise (e : exn).
Arguments Ok {A} a.
Arguments Raise {A} e.

(** [len(s)] as a Python int. *)
Definition len {A} (s : list A) : Z := Z.of_nat (length s).

(** [not s] for a string (or list): true exactly on the empty one. *)
Definition py_not {A} (s : list A) : bool :=
  match s with [] => true | _ => false end.

(** [l[i]] with Python's negative indices and [IndexError]. *)
Definition py_getitem {A} (l : list A) (i : Z) : result A :=
  let j := if i <? 0 then i + len l else i in
  if (0 <=? j) && (j <? len l) then
    match nth_error l (Z.to_nat j) with
    | Some x => Ok x
    | None => Raise IndexError
    end
  else Raise IndexError.

Fixpoint take_while {A} (p : A -> bool) (l : list A) : list A :=
  match l with
  | [] => []
  | x :: l' => if p x then x :: take_while p l' else []
  end.

Fixpoint drop_while {A} (p : A -> bool) (l : list A) : list A :=
  match l with
  | [] => []
  | x :: l' => if p x then drop_while p l' else l
  end.

(** ** Character classes *)

Definition is_ascii (c : Z) : bool := (0 <=? c) && (c <? 128).
Definition ascii_upper (c : Z) : bool := (65 <=? c) && (c <=? 90).
Definition ascii_lower (c : Z) : bool := (97 <=? c) && (c <=? 122).
Definition ascii_digit (c : Z) : bool := (48 <=? c) && (c <=? 57).

(** The regex class [[a-zA-Z]]. *)
Definition ascii_letter (c : Z) : bool := ascii_lower c || ascii_upper c.

(** ['가'] is U+AC00 (44032) and ['힣'] is U+D7A3 (55203). *)
Definition GA : Z := 44032.
Definition HIH : Z := 55203.

(** The regex class [[가-힣]], and the comparison ['가' <= char <= '힣']. *)
Definition hangul_syllable (c : Z) : bool := (GA <=? c) && (c <=? HIH).

(** ASCII whitespace as [str.isspace] sees it. *)
Definition ascii_space (c : Z) : bool :=
  ((9 <=? c) && (c <=? 13)) || ((28 <=? c) && (c <=? 32)).

Definition ascii_to_lower (c : Z) : Z := if ascii_upper c then c + 32 else c.

(** ** Unicode character database

    The ASCII rows and the Hangul-syllable rows (general category Lo) of
    the database are written out; the other rows are parameters of the
    development. *)

Section Indexer.

Variable ucd_alpha : Z -> bool.    (* other code points: category L* *)
Variable ucd_numeric : Z -> bool.  (* other code points: decimal, digit or numeric *)
Variable ucd_space : Z -> bool.    (* other code points: whitespace *)
Variable ucd_lower : Z -> list Z.  (* other code points: lower-case mapping *)

Definition isalpha_cp (c : Z) : bool :=
  if is_ascii c then ascii_letter c
  else if hangul_syllable c then true
  else ucd_alpha c.

Definition isnumeric_cp (c : Z) : bool :=
  if is_ascii c then ascii_digit c
  else if hangul_syllable c then false
  else ucd_numeric c.

Definition isspace_cp (c : Z) : bool :=
  if is_ascii c then ascii_space c
  else if hangul_syllable c then false
  else ucd_space c.

Definition lower_cp (c : Z) : list Z :=
  if is_ascii c then [ascii_to_lower c]
  else if hangul_syllable c then [c]
  else ucd_lower c.

(** [\w] of the [re] module on [str] patterns: alphanumeric or underscore. *)
Definition is_word_char (c : Z) : bool :=
  isalpha_cp c || isnumeric_cp c || (c =? 95).

(** ** [str] methods *)

(** [s.isalpha()]: non-empty and every character alphabetic. *)
Definition str_isalpha (s : list Z) : bool :=
  negb (py_not s) && forallb isalpha_cp s.

(** [s.isascii()]: every character below 128 (true on the empty string). *)
Definition str_isascii (s : list Z) : bool := forallb is_ascii s.

(** [s.lower()]. *)
Definition str_lower (s : list Z) : list Z := flat_map lower_cp s.

(** [s.strip()]. *)
Definition str_strip (s : list Z) : list Z :=
  rev (drop_while isspace_cp (rev (drop_while isspace_cp s))).

(** ** KoreanChoseongExtractor *)

(** [choseong_list] of [extract_choseong]: the compatibility jamo
    ㄱ ㄲ ㄴ ㄷ ㄸ ㄹ ㅁ ㅂ ㅃ ㅅ ㅆ ㅇ ㅈ ㅉ ㅊ ㅋ ㅌ ㅍ ㅎ. *)
Definition choseong_list : list Z :=
  [12593; 12594; 12596; 12599; 12600; 12601; 12609; 12610; 12611; 12613;
   12614; 12615; 12616; 12617; 12618; 12619; 12620; 12621; 12622].

(** The [for char in text] loop of [extract_choseong]; [choseong] is the
    string built so far. *)
Fixpoint choseong_loop (text : list Z) (choseong : list Z) : result (list Z) :=
  match text with
  | [] => Ok choseong
  | char :: text' =>
      if (GA <=? char) && (char <=? HIH) then
        let unicode_val := char in
        if (44032 <=? unicode_val) && (unicode_val <=? 55203) then
          let choseong_code := (unicode_val - 44032) / 588 in
          match py_getitem choseong_list choseong_code with
          | Ok c => choseong_loop text' (choseong ++ [c])
          | Raise e => Raise e
          end
        else choseong_loop text' (choseong ++ [char])
      else choseong_loop text' (choseong ++ [char])
  end.

Definition extract_choseong (text : list Z) : result (list Z) :=
  if py_not text then Ok []
  else if str_isalpha text && str_isascii text then Ok (str_lower text)
  else choseong_loop text [].

(** [is_korean_word]. *)
Definition is_korean_word (text : list Z) : bool :=
  if py_not text then false else existsb hangul_syllable text.

(** *** The definition of section 4.1 of the specification *)

(** Symbol of the initial consonant of a syllable: the entry of the list at
    index [(codepoint - 0xAC00) div 588]; other characters are copied. *)
Definition choseong_of_char_spec (c : Z) : Z :=
  if (0xAC00 <=? c) && (c <=? 0xD7A3)
  then nth (Z.to_nat ((c - 0xAC00) / 588)) choseong_list c
  else c.

Definition extract_choseong_spec (text : list Z) : list Z :=
  match text with
  | [] => []
  | _ => if forallb ascii_letter text then map ascii_to_lower text
         else map choseong_of_char_spec text
  end.

(** ** Word validators of KoreanMorphemeAnalyzer *)

(** [re.compile(r'[가-힣]').search(word)] finds a match. *)
Definition korean_pattern_search (word : list Z) : bool :=
  existsb hangul_syllable word.

(** The class [[^가-힣a-zA-Z]]. *)
Definition non_korean_non_latin (c : Z) : bool :=
  negb (hangul_syllable c || ascii_letter c).

(** [$] without MULTILINE: at the end of the string, or just before a
    newline that ends the string. *)
Definition at_dollar (rest : list Z) : bool :=
  match rest with
  | [] => true
  | [c] => c =? 10
  | _ => false
  end.

(** [re.match(r'^[^가-힣a-zA-Z]*$', word)] finds a match: the star takes a
    character while it can, and gives it back when the rest fails. *)
Fixpoint only_other_match (word : list Z) : bool :=
  match word with
  | [] => at_dollar []
  | c :: rest =>
      (non_korean_non_latin c && only_other_match rest) || at_dollar word
  end.

Definition is_valid_korean_word (word : list Z) : bool :=
  if py_not word || (len word <? 2) then false
  else if negb (korean_pattern_search word) then false
  else if only_other_match word then false
  else true.

Definition is_valid_english_word (word : list Z) : bool :=
  if py_not word || (len word <? 2) then false
  else if negb (str_isalpha word) then false
  else if len word >? 50 then false
  else true.

(** ** English word extractor *)

Definition opt_word_char (o : option Z) : bool :=
  match o with
  | Some c => is_word_char c
  | None => false
  end.

(** [\b] between the character before ([None] at the start of the string)
    and the character after ([None] at its end). *)
Definition word_boundary (prev next : option Z) : bool :=
  xorb (opt_word_char prev) (opt_word_char next).

(** [[a-zA-Z]{2,}\b] with [n] letters of the run taken: the greedy
    quantifier starts from the whole run and gives letters back one at a
    time, never going below two. *)
Fixpoint letters_then_boundary (run rest : list Z) (n : nat)
  : option (list Z) :=
  match n with
  | O => None
  | S n' =>
      if (2 <=? n)%nat &&
         word_boundary (last (take n run)) (head (drop n run ++ rest))
      then Some (take n run)
      else letters_then_boundary run rest n'
  end.

(** One attempt of [\b[a-zA-Z]{2,}\b] at a position of the sentence. *)
Definition english_pattern_match_at (prev : option Z) (s : list Z)
  : option (list Z) :=
  if word_boundary prev (head s) then
    let run := take_while ascii_letter s in
    letters_then_boundary run (drop_while ascii_letter s) (length run)
  else None.

(** [findall]: the scan goes on after the end of each match; [inside]
    counts the characters of the last match still to be passed. *)
Fixpoint english_pattern_scan (prev : option Z) (s : list Z) (inside : nat)
  : list (list Z) :=
  match s with
  | [] => []
  | c :: rest =>
      match inside with
      | S k => english_pattern_scan (Some c) rest k
      | O =>
          match english_pattern_match_at prev s with
          | Some m => m :: english_pattern_scan (Some c) rest (length m - 1)
          | None => english_pattern_scan (Some c) rest 0
          end
      end
  end.

Definition english_pattern_findall (sentence : list Z) : list (list Z) :=
  english_pattern_scan None sentence 0.

(** The [for word in english_words] loop of [_extract_english_words]. *)
Fixpoint english_words_loop (english_words valid_english_words : list (list Z))
  : list (list Z) :=
  match english_words with
  | [] => valid_english_words
  | word :: rest =>
      if is_valid_english_word word
      then english_words_loop rest (valid_english_words ++ [str_lower word])
      else english_words_loop rest valid_english_words
  end.

Definition _extract_english_words (sentence : list Z) : list (list Z) :=
  english_words_loop (english_pattern_findall sentence) [].

(** ** The world: log lines and client calls *)

Inductive level : Type := INFO | WARNING | ERROR.

(** One constructor per logging call of [initial_test.py]. *)
Inductive log_msg : Type :=
| MsgExtractWordsError (e : exn)          (* extract_words_from_sentence *)
| MsgMorphemeError (e : exn)              (* _extract_korean_words *)
| MsgScrollError (e : exn)                (* scroll failure in the paging loop *)
| MsgExtractSummary (sentences words : Z) (* end of extract_words_from_index *)
| MsgExtractIndexError (e : exn)          (* extract_words_from_index *)
| MsgNoWordsToIndex                       (* index_words_to_auto_search, no words *)
| MsgBulkSomeErrors
| MsgBulkItemError (err : Z)
| MsgBulkSuccess (n : Z)
| MsgIndexingError (e : exn)              (* index_words_to_auto_search *)
| MsgExtracting (source_index : list Z)   (* process_words_from_source_index *)
| MsgIndexing (target_index : list Z)
| MsgDone
| MsgNothingToProcess
| MsgPipelineError (e : exn).

(** The dictionaries built for each word. *)
Record word_data : Type := WordData {
  word : list Z;
  choseong : list Z;
  word_length : option Z;
  source_sentence : option (list Z)
}.

(** Elements of the [bulk_data] list. *)
Inductive bulk_line : Type :=
| BulkIndexAction (_index _id : list Z)
| BulkDoc (id word initial : list Z) (source_sentence : option (list Z)).

Record bulk_response : Type := BulkResponse {
  errors : bool;
  items : list (option Z)   (* the [error] of each item's [index] entry *)
}.

Inductive client_call : Type :=
| CallSearch (index : list Z) (_source : list (list Z))
| CallScroll (scroll_id : Z)
| CallClearScroll (scroll_id : Z)
| CallBulk (body : list bulk_line).

Record world : Type := World {
  w_log : list (level * log_msg);   (* oldest first *)
  w_calls : list client_call        (* oldest first *)
}.

(** What the OpenSearch server answers during one run.  [scroll_replies]
    are the answers to the successive scroll calls; a scroll that has
    delivered all of them answers with a page without hits. *)
Record server : Type := Server {
  search_reply : result (Z * list (gmap (list Z) (list Z)));
  scroll_replies : list (result (list (gmap (list Z) (list Z))));
  clear_scroll_reply : result unit;
  bulk_reply : result bulk_response
}.

(** *** State and exception monad *)

Definition M (A : Type) : Type := world -> result A * world.

Definition ret {A} (a : A) : M A := fun w => (Ok a, w).

Definition raise {A} (e : exn) : M A := fun w => (Raise e, w).

Definition bind {A B} (m : M A) (k : A -> M B) : M B :=
  fun w =>
    match m w with
    | (Ok a, w') => k a w'
    | (Raise e, w') => (Raise e, w')
    end.

(** [try: m except Exception as e: h e]. *)
Definition try_except {A} (m : M A) (h : exn -> M A) : M A :=
  fun w =>
    match m w with
    | (Ok a, w') => (Ok a, w')
    | (Raise e, w') => h e w'
    end.

Definition lift {A} (r : result A) : M A := fun w => (r, w).

Definition log (l : level) (m : log_msg) : M unit :=
  fun w => (Ok tt, World (w_log w ++ [(l, m)]) (w_calls w)).

Definition call (c : client_call) : M unit :=
  fun w => (Ok tt, World (w_log w) (w_calls w ++ [c])).

Declare Scope py_scope.
Delimit Scope py_scope with py.
Notation "x <- m ;; k" := (bind m (fun x => k))
  (at level 100, m at next level, right associativity) : py_scope.
Notation "m ;;; k" := (bind m (fun _ => k))
  (at level 100, right associativity) : py_scope.
Local Open Scope py_scope.

(** [for x in l: s = body x s]. *)
Fixpoint for_each {A S} (l : list A) (body : A -> S -> M S) (s : S) : M S :=
  match l with
  | [] => ret s
  | x :: l' => s' <- body x s ;; for_each l' body s'
  end.

(** ** Morphological word extractor *)

(** The analyzer object: the name it was built with and its [pos] method;
    the flag of [pos] tells whether [norm=True, stem=True] is passed. *)
Variable analyzer_type : list Z.
Variable analyzer_pos : bool -> list Z -> result (list (list Z * list Z)).

(** ['okt'] *)
Definition okt : list Z := [111; 107; 116].

(** [pos_filter is None or pos in pos_filter]. *)
Definition pos_accepted (pos_filter : option (list (list Z))) (pos : list Z)
  : bool :=
  match pos_filter with
  | None => true
  | Some tags => bool_decide (pos ∈ tags)
  end.

(** The [for word, pos in morphs] loop of [_extract_korean_words]. *)
Fixpoint korean_words_loop (morphs : list (list Z * list Z))
    (pos_filter : option (list (list Z))) (words : list (list Z))
  : list (list Z) :=
  match morphs with
  | [] => words
  | (word, pos) :: rest =>
      if pos_accepted pos_filter pos then
        if is_valid_korean_word word
        then korean_words_loop rest pos_filter (words ++ [word])
        else korean_words_loop rest pos_filter words
      else korean_words_loop rest pos_filter words
  end.

Definition _extract_korean_words (sentence : list Z)
    (pos_filter : option (list (list Z))) : M (list (list Z)) :=
  try_except
    (morphs <- lift (if bool_decide (analyzer_type = okt)
                     then analyzer_pos true sentence
                     else analyzer_pos false sentence) ;;
     ret (korean_words_loop morphs pos_filter []))
    (fun e => log ERROR (MsgMorphemeError e) ;;; ret []).

(** [list(set(words))]: the distinct elements, in the order the set
    happens to iterate them. *)
Definition list_set (words : list (list Z)) : list (list Z) :=
  elements (list_to_set words : gset (list Z)).

Definition extract_words_from_sentence (sentence : list Z)
    (pos_filter : option (list (list Z))) : M (list (list Z)) :=
  if py_not sentence || py_not (str_strip sentence) then ret []
  else
    let words := [] in
    try_except
      (let english_words := _extract_english_words sentence in
       let words := words ++ english_words in
       korean_words <- _extract_korean_words sentence pos_filter ;;
       let words := words ++ korean_words in
       ret (list_set words))
      (fun e => log ERROR (MsgExtractWordsError e) ;;; ret []).

(** ** OpenSearchWordIndexer *)

Variable srv : server.

(** The [for word in extracted_words] loop: one dictionary per word. *)
Fixpoint append_word_data (extracted_words : list (list Z))
    (words : list word_data) : M (list word_data) :=
  match extracted_words with
  | [] => ret words
  | word :: rest =>
      c <- lift (extract_choseong word) ;;
      append_word_data rest (words ++ [WordData word c None None])
  end.

(** Body of [for field in sentence_fields]; the state is [words] and
    [processed_sentences]. *)
Definition process_field (pos_filter : option (list (list Z)))
    (source : gmap (list Z) (list Z)) (field : list Z)
    (st : list word_data * Z) : M (list word_data * Z) :=
  match source !! field with
  | Some sentence =>
      if py_not sentence then ret st
      else
        let processed_sentences := snd st + 1 in
        extracted_words <- extract_words_from_sentence sentence pos_filter ;;
        words <- append_word_data extracted_words (fst st) ;;
        ret (words, processed_sentences)
  | None => ret st
  end.

(** Body of [while hits]: the page is processed, then the next one is
    asked for; a failing scroll call ends the loop. *)
Fixpoint scroll_loop (replies : list (result (list (gmap (list Z) (list Z)))))
    (scroll_id : Z) (sentence_fields : list (list Z))
    (pos_filter : option (list (list Z)))
    (hits : list (gmap (list Z) (list Z))) (st : list word_data * Z)
  : M (list word_data * Z) :=
  match hits with
  | [] => ret st
  | _ :: _ =>
      st' <- for_each hits
               (fun source => for_each sentence_fields
                                (process_field pos_filter source)) st ;;
      call (CallScroll scroll_id) ;;;
      match replies with
      | [] => ret st'
      | Ok hits' :: replies' =>
          scroll_loop replies' scroll_id sentence_fields pos_filter hits' st'
      | Raise scroll_error :: _ =>
          log WARNING (MsgScrollError scroll_error) ;;; ret st'
      end
  end.

Definition extract_words_from_index (source_index : list Z)
    (sentence_fields : list (list Z)) (pos_filter : option (list (list Z)))
  : M (list word_data) :=
  try_except
    (call (CallSearch source_index sentence_fields) ;;;
     response <- lift (search_reply srv) ;;
     let scroll_id := fst response in
     let hits := snd response in
     st <- scroll_loop (scroll_replies srv) scroll_id sentence_fields
             pos_filter hits ([], 0) ;;
     try_except
       (call (CallClearScroll scroll_id) ;;; lift (clear_scroll_reply srv))
       (fun _ => ret tt) ;;;
     log INFO (MsgExtractSummary (snd st) (len (fst st))) ;;;
     ret (fst st))
    (fun e => log ERROR (MsgExtractIndexError e) ;;; raise e).

(** The [for word_data in words] loop of [index_words_to_auto_search]. *)
Fixpoint bulk_data_loop (words : list word_data) (target_index : list Z)
    (bulk_data : list bulk_line) : list bulk_line :=
  match words with
  | [] => bulk_data
  | word_data :: rest =>
      bulk_data_loop rest target_index
        (bulk_data ++ [BulkIndexAction target_index (word word_data);
                       BulkDoc (word word_data) (word word_data)
                         (choseong word_data) (source_sentence word_data)])
  end.

(** The [for item in response['items']] loop. *)
Definition log_item_error (item : option Z) (u : unit) : M unit :=
  match item with
  | Some err => log ERROR (MsgBulkItemError err)
  | None => ret u
  end.

(** [print(bulk_data)] writes to the standard output, which the world
    does not record. *)
Definition index_words_to_auto_search (words : list word_data)
    (target_index : list Z) : M unit :=
  if py_not words then log WARNING MsgNoWordsToIndex
  else
    try_except
      (let bulk_data := bulk_data_loop words target_index [] in
       if negb (py_not bulk_data) then
         call (CallBulk bulk_data) ;;;
         response <- lift (bulk_reply srv) ;;
         if errors response then
           log ERROR MsgBulkSomeErrors ;;;
           for_each (items response) log_item_error tt
         else log INFO (MsgBulkSuccess (len words))
       else ret tt)
      (fun e => log ERROR (MsgIndexingError e) ;;; raise e).

Definition process_words_from_source_index (source_index : list Z)
    (sentence_fields : list (list Z)) (target_index : list Z)
    (pos_filter : option (list (list Z))) : M unit :=
  try_except
    (log INFO (MsgExtracting source_index) ;;;
     words <- extract_words_from_index source_index sentence_fields
                pos_filter ;;
     if negb (py_not words) then
       log INFO (MsgIndexing target_index) ;;;
       index_words_to_auto_search words target_index ;;;
       log INFO MsgDone
     else log WARNING MsgNothingToProcess)
    (fun e => log ERROR (MsgPipelineError e) ;;; raise e).

(** ** The in-memory pipeline of [morpheme_test.py]

    Step 3 of [test_complete_pipeline]: [unique_words] is a dictionary
    from words to their dictionaries. *)
Fixpoint unique_words_loop (all_words : list word_data)
    (unique_words : gmap (list Z) word_data) : gmap (list Z) word_data :=
  match all_words with
  | [] => unique_words
  | word_data :: rest =>
      let word := word word_data in
      match unique_words !! word with
      | None => unique_words_loop rest (<[word := word_data]> unique_words)
      | Some _ => unique_words_loop rest unique_words
      end
  end.

(** ** Results and traces of the indexer as pure functions

    What the monadic functions above return and append to the world,
    stated without the monad; the theorems below relate the two. *)

(** The answer of the analyzer call of [_extract_korean_words]. *)
Definition pos_reply (sentence : list Z) : result (list (list Z * list Z)) :=
  if bool_decide (analyzer_type = okt)
  then analyzer_pos true sentence
  else analyzer_pos false sentence.

Definition blank (sentence : list Z) : bool :=
  py_not sentence || py_not (str_strip sentence).

Definition korean_words (sentence : list Z)
    (pos_filter : option (list (list Z))) : list (list Z) :=
  match pos_reply sentence with
  | Ok morphs => korean_words_loop morphs pos_filter []
  | Raise _ => []
  end.

Definition sentence_words (sentence : list Z)
    (pos_filter : option (list (list Z))) : list (list Z) :=
  if blank sentence then []
  else list_set (_extract_english_words sentence ++
                 korean_words sentence pos_filter).

Definition sentence_log (sentence : list Z) : list (level * log_msg) :=
  if blank sentence then []
  else match pos_reply sentence with
       | Ok _ => []
       | Raise e => [(ERROR, MsgMorphemeError e)]
       end.

(** The value of a field of a document, when present and not empty. *)
Definition field_sentences (source : gmap (list Z) (list Z))
    (field : list Z) : list (list Z) :=
  match source !! field with
  | Some sentence => if py_not sentence then [] else [sentence]
  | None => []
  end.

(** The non-empty values of the configured fields of one document. *)
Definition source_sentences (sentence_fields : list (list Z))
    (source : gmap (list Z) (list Z)) : list (list Z) :=
  flat_map (field_sentences source) sentence_fields.

Definition page_sentences (sentence_fields : list (list Z))
    (hits : list (gmap (list Z) (list Z))) : list (list Z) :=
  flat_map (source_sentences sentence_fields) hits.

Definition word_records (words : list (list Z)) : list word_data :=
  map (fun w => WordData w (extract_choseong_spec w) None None) words.

(** The dictionaries of a list of sentences: those of the first sentence,
    then those of the second, and so on. *)
Definition corpus_records (pos_filter : option (list (list Z)))
    (sentences : list (list Z)) : list word_data :=
  flat_map (fun s => word_records (sentence_words s pos_filter)) sentences.

(** The pages the paging loop processes: the first one and those of the
    scroll calls, up to the first empty page or failing call. *)
Fixpoint fetched_pages
    (replies : list (result (list (gmap (list Z) (list Z)))))
    (hits : list (gmap (list Z) (list Z)))
  : list (list (gmap (list Z) (list Z))) :=
  match hits with
  | [] => []
  | _ :: _ =>
      hits :: match replies with
              | Ok hits' :: replies' => fetched_pages replies' hits'
              | _ => []
              end
  end.

(** The sentences of a run, in the order they are processed. *)
Definition corpus_sentences (sentence_fields : list (list Z))
    (hits : list (gmap (list Z) (list Z))) : list (list Z) :=
  flat_map (page_sentences sentence_fields)
    (fetched_pages (scroll_replies srv) hits).

(** The log lines of the paging loop. *)
Fixpoint scroll_log (sentence_fields : list (list Z))
    (replies : list (result (list (gmap (list Z) (list Z)))))
    (hits : list (gmap (list Z) (list Z))) : list (level * log_msg) :=
  match hits with
  | [] => []
  | _ :: _ =>
      flat_map sentence_log (page_sentences sentence_fields hits) ++
      match replies with
      | [] => []
      | Ok hits' :: replies' => scroll_log sentence_fields replies' hits'
      | Raise scroll_error :: _ => [(WARNING, MsgScrollError scroll_error)]
      end
  end.

(** Log lines and client calls of [extract_words_from_index] when the
    search call succeeds with [scroll_id] and [hits]. *)
Definition index_log (sentence_fields : list (list Z))
    (pos_filter : option (list (list Z)))
    (hits : list (gmap (list Z) (list Z))) : list (level * log_msg) :=
  scroll_log sentence_fields (scroll_replies srv) hits ++
  [(INFO, MsgExtractSummary
            (len (corpus_sentences sentence_fields hits))
            (len (corpus_records pos_filter
                    (corpus_sentences sentence_fields hits))))].

Definition index_calls (source_index : list Z)
    (sentence_fields : list (list Z)) (scroll_id : Z)
    (hits : list (gmap (list Z) (list Z))) : list client_call :=
  [CallSearch source_index sentence_fields] ++
  map (fun _ => CallScroll scroll_id)
    (fetched_pages (scroll_replies srv) hits) ++
  [CallClearScroll scroll_id].

(** The body of the bulk call: an action line and a document line per
    dictionary. *)
Definition bulk_lines (target_index : list Z) (words : list word_data)
  : list bulk_line :=
  flat_map (fun r => [BulkIndexAction target_index (word r);
                      BulkDoc (word r) (word r) (choseong r)
                        (source_sentence r)]) words.

(** Log lines of [index_words_to_auto_search] on a non-empty list. *)
Definition bulk_log (words : list word_data) : list (level * log_msg) :=
  match bulk_reply srv with
  | Ok response =>
      if errors response then
        (ERROR, MsgBulkSomeErrors) ::
        flat_map (fun item => match item with
                              | Some err => [(ERROR, MsgBulkItemError err)]
                              | None => []
                              end) (items response)
      else [(INFO, MsgBulkSuccess (len words))]
  | Raise e => [(ERROR, MsgIndexingError e)]
  end.

Definition bulk_outcome : result unit :=
  match bulk_reply srv with
  | Ok _ => Ok tt
  | Raise e => Raise e
  end.

Definition is_bulk_call (c : client_call) : bool :=
  match c with CallBulk _ => true | _ => false end.

Definition is_scroll_call (c : client_call) : bool :=
  match c with CallScroll _ => true | _ => false end.

(** The world with log lines and client calls appended. *)
Definition extend (lines : list (level * log_msg)) (calls : list client_call)
    (w : world) : world :=
  World (w_log w ++ lines) (w_calls w ++ calls).

(** Number of dictionaries of a list that are about the word [x]. *)
Definition occurrences (x : list Z) (words : list word_data) : nat :=
  length (List.filter (fun r => bool_decide (word r = x)) words).

(** [body] appends the dictionaries of the sentences [sentences x], counts
    them and logs what their extraction logs. *)
Definition accumulates {A} (pos_filter : option (list (list Z)))
    (body : A -> list word_data * Z -> M (list word_data * Z))
    (sentences : A -> list (list Z)) : Prop :=
  forall x st w,
    body x st w =
    (Ok (fst st ++ corpus_records pos_filter (sentences x),
         snd st + len (sentences x)),
     extend (flat_map sentence_log (sentences x)) [] w).

(** The invariant of the [word] of an emitted dictionary. *)
Definition valid_word (x : list Z) : Prop :=
  2 <= len x /\
  (existsb hangul_syllable x = true \/
   (str_isalpha x = true /\ 2 <= len x <= 50)).

(** No word has two dictionaries in the list. *)
Definition each_word_once (words : list word_data) : Prop :=
  forall x, (occurrences x words <= 1)%nat.

(** Log lines of [process_words_from_source_index] after those of the
    extraction step, for the list of dictionaries it obtained. *)
Definition write_log (target_index : list Z) (words : list word_data)
  : list (level * log_msg) :=
  match words with
  | [] => [(WARNING, MsgNothingToProcess)]
  | _ :: _ =>
      [(INFO, MsgIndexing target_index)] ++ bulk_log words ++
      match bulk_reply srv with
      | Ok _ => [(INFO, MsgDone)]
      | Raise e => [(ERROR, MsgPipelineError e)]
      end
  end.

Definition write_calls (target_index : list Z) (words : list word_data)
  : list client_call :=
  match words with
  | [] => []
  | _ :: _ => [CallBulk (bulk_lines target_index words)]
  end.

Definition write_outcome (words : list word_data) : result unit :=
  match words with
  | [] => Ok tt
  | _ :: _ => bulk_outcome
  end.

(** ** Sample data *)

(** A character database without other rows, and identity lower-casing. *)
Definition no_row (c : Z) : bool := false.
Definition same_row (c : Z) : list Z := [c].

(** An analyzer that finds no morpheme, and one whose call fails. *)
Definition silent_pos (flag : bool) (sentence : list Z)
  : result (list (list Z * list Z)) := Ok [].
Definition failing_pos (flag : bool) (sentence : list Z)
  : result (list (list Z * list Z)) := Raise (ExternalError 500).

(** ["title"], ["project"], ["auto_search"] and ["ab"]. *)
Definition title : list Z := [116; 105; 116; 108; 101].
Definition project : list Z := [112; 114; 111; 106; 101; 99; 116].
Definition auto_search : list Z :=
  [97; 117; 116; 111; 95; 115; 101; 97; 114; 99; 104].
Definition ab : list Z := [97; 98].

(** A document whose title is ["ab"]. *)
Definition doc_ab : gmap (list Z) (list Z) := {[ title := ab ]}.

Definition bulk_fine : result bulk_response := Ok (BulkResponse false []).

(** A source collection of two documents, delivered in one page. *)
Definition two_docs_server : server :=
  Server (Ok (1, [doc_ab; doc_ab])) [] (Ok tt) bulk_fine.

(** A source collection of one document. *)
Definition one_doc_server : server :=
  Server (Ok (1, [doc_ab])) [] (Ok tt) bulk_fine.

(** An empty source collection. *)
Definition empty_server : server := Server (Ok (1, [])) [] (Ok tt) bulk_fine.

(** A server whose search call fails. *)
Definition down_server : server :=
  Server (Raise (ExternalError 503)) [] (Ok tt) bulk_fine.

(** A server whose second scroll call fails. *)
Definition flaky_server : server :=
  Server (Ok (1, [doc_ab]))
    [Ok [doc_ab]; Raise (ExternalError 504); Ok [doc_ab]] (Ok tt) bulk_fine.

(** Run of a computation from a world. *)
Definition returned {A} (m : M A) (w : world) : result A := fst (m w).
Definition world_after {A} (m : M A) (w : world) : world := snd (m w).

(** ** More of the source *)

(** [CHOSEONG_MAP] of [KoreanChoseongExtractor]: each consonant with a
    syllable that begins with it (the keys of the literal are distinct). *)
Definition CHOSEONG_MAP : gmap (list Z) (list Z) :=
  list_to_map
    [([12593], [44032]); ([12594], [44620]); ([12596], [45208]);
     ([12599], [45796]); ([12600], [46384]); ([12601], [46972]);
     ([12609], [47560]); ([12610], [48148]); ([12611], [48736]);
     ([12613], [49324]); ([12614], [49912]); ([12615], [50500]);
     ([12616], [51088]); ([12617], [51676]); ([12618], [52264]);
     ([12619], [52852]); ([12620], [53440]); ([12621], [54028]);
     ([12622], [54616])].

(** The analyzer classes of [konlpy.tag]. *)
Inductive backend : Type := Okt | Komoran | Hannanum | Kkma | Mecab.

(** The two logging calls of [_initialize_analyzer]. *)
Inductive init_msg : Type :=
| MsgUnsupportedAnalyzer (analyzer_type : list Z)
| MsgInitFailed (e : exn).

(** Whether building an analyzer of a class succeeds. *)
Variable construct : backend -> result unit.

(** ['komoran'], ['hannanum'], ['kkma'] and ['mecab']. *)
Definition komoran : list Z := [107; 111; 109; 111; 114; 97; 110].
Definition hannanum : list Z := [104; 97; 110; 110; 97; 110; 117; 109].
Definition kkma : list Z := [107; 107; 109; 97].
Definition mecab : list Z := [109; 101; 99; 97; 98].

(** [Okt()], [Komoran()], ... *)
Definition new_backend (b : backend) : result backend :=
  match construct b with
  | Ok _ => Ok b
  | Raise e => Raise e
  end.

(** [_initialize_analyzer]: what it returns or raises, and its log
    lines.  The handler's own [Okt()] is outside the [try]. *)
Definition _initialize_analyzer (analyzer_type : list Z)
  : result backend * list (level * init_msg) :=
  let tried :=
    if bool_decide (analyzer_type = okt) then (new_backend Okt, [])
    else if bool_decide (analyzer_type = komoran)
    then (new_backend Komoran, [])
    else if bool_decide (analyzer_type = hannanum)
    then (new_backend Hannanum, [])
    else if bool_decide (analyzer_type = kkma) then (new_backend Kkma, [])
    else if bool_decide (analyzer_type = mecab) then (new_backend Mecab, [])
    else (new_backend Okt,
          [(WARNING, MsgUnsupportedAnalyzer analyzer_type)]) in
  match tried with
  | (Ok b, lines) => (Ok b, lines)
  | (Raise e, lines) =>
      (new_backend Okt, lines ++ [(ERROR, MsgInitFailed e)])
  end.

(** The name a class is selected by. *)
Definition backend_name (b : backend) : list Z :=
  match b with
  | Okt => okt
  | Komoran => komoran
  | Hannanum => hannanum
  | Kkma => kkma
  | Mecab => mecab
  end.

(** *** [test_complete_pipeline] of [morpheme_test.py]

    The sample sentences are a parameter; the [print] calls write to the
    standard output, which the world does not record. *)

(** ['Noun'], ['Verb'], ['Adjective']. *)
Definition noun_verb_adjective : list (list Z) :=
  [[78; 111; 117; 110]; [86; 101; 114; 98];
   [65; 100; 106; 101; 99; 116; 105; 118; 101]].

(** Step 2, the [for word in words] loop. *)
Fixpoint demo_append_word_data (words : list (list Z)) (sentence : list Z)
    (all_words : list word_data) : M (list word_data) :=
  match words with
  | [] => ret all_words
  | word :: rest =>
      choseong <- lift (extract_choseong word) ;;
      demo_append_word_data rest sentence
        (all_words ++
         [WordData word choseong (Some (len word)) (Some sentence)])
  end.

(** Body of [for sentence in sample_sentences]. *)
Definition demo_sentence (sentence : list Z) (all_words : list word_data)
  : M (list word_data) :=
  words <- extract_words_from_sentence sentence (Some noun_verb_adjective) ;;
  demo_append_word_data words sentence all_words.

(** Steps 1 to 3: the dictionary [unique_words]. *)
Definition test_complete_pipeline (sample_sentences : list (list Z))
  : M (gmap (list Z) word_data) :=
  all_words <- for_each sample_sentences demo_sentence [] ;;
  ret (unique_words_loop all_words ∅).

(** The dictionaries of the sentences as [test_complete_pipeline] builds
    them. *)
Definition demo_records (sentences : list (list Z)) : list word_data :=
  flat_map
    (fun s => map (fun x => WordData x (extract_choseong_spec x)
                              (Some (len x)) (Some s))
                (sentence_words s (Some noun_verb_adjective))) sentences.

(** The valid tokens of an analyzer answer that the filter accepts. *)
Definition accepted_tokens (pos_filter : option (list (list Z)))
    (morphs : list (list Z * list Z)) : list (list Z) :=
  map fst (List.filter (fun m => pos_accepted pos_filter (snd m) &&
                                 is_valid_korean_word (fst m)) morphs).

(** *** More sample data *)

(** A server whose bulk call fails. *)
Definition bulk_down_server : server :=
  Server (Ok (1, [doc_ab])) [] (Ok tt) (Raise (ExternalError 502)).

(** An installation where only [Okt()] can be built. *)
Definition only_okt (b : backend) : result unit :=
  match b with
  | Okt => Ok tt
  | _ => Raise (ExternalError 1)
  end.

(** * Properties *)

(** Equality of two lists built with [++], up to association and empty
    lists. *)
Ltac same_lists :=
  repeat (rewrite <- app_assoc || rewrite app_nil_r);
  cbn [app]; reflexivity.

(** ** Choseong extractor *)

Lemma letter_is_ascii c : ascii_letter c = true -> is_ascii c = true.
Proof. unfold ascii_letter, ascii_lower, ascii_upper, is_ascii. lia. Qed.

Lemma isalpha_isascii_letter c : isalpha_cp c && is_ascii c = ascii_letter c.
Proof.
  unfold isalpha_cp. destruct (is_ascii c) eqn:E.
  - apply andb_true_r.
  - rewrite andb_false_r. destruct (ascii_letter c) eqn:L; [|done].
    apply letter_is_ascii in L. congruence.
Qed.

Lemma forallb_isalpha_isascii s :
  forallb isalpha_cp s && forallb is_ascii s = forallb ascii_letter s.
Proof.
  induction s as [|c s IH]; [done|]. simpl.
  rewrite <- IH, <- isalpha_isascii_letter.
  destruct (isalpha_cp c), (is_ascii c), (forallb isalpha_cp s); done.
Qed.

Lemma str_lower_letters s :
  forallb ascii_letter s = true -> str_lower s = map ascii_to_lower s.
Proof.
  induction s as [|c s IH]; [done|]. simpl.
  intros [Hc Hs]%andb_true_iff. rewrite IH by done.
  unfold lower_cp. by rewrite (letter_is_ascii _ Hc).
Qed.

Lemma choseong_code_range c :
  hangul_syllable c = true -> 0 <= (c - 44032) / 588 < 19.
Proof.
  unfold hangul_syllable, GA, HIH. intros H.
  assert (44032 <= c <= 55203) as Hc by lia.
  split; [apply Z.div_pos; lia|apply Z.div_lt_upper_bound; lia].
Qed.

Lemma choseong_getitem c :
  hangul_syllable c = true ->
  py_getitem choseong_list ((c - 44032) / 588) =
  Ok (nth (Z.to_nat ((c - 44032) / 588)) choseong_list c).
Proof.
  intros H. pose proof (choseong_code_range c H) as Hr.
  unfold py_getitem.
  replace ((c - 44032) / 588 <? 0) with false by lia.
  replace (len choseong_list) with 19 by reflexivity.
  replace ((0 <=? (c - 44032) / 588) && ((c - 44032) / 588 <? 19)) with true
    by lia.
  rewrite (nth_error_nth' choseong_list c); [done|].
  simpl. lia.
Qed.

Lemma choseong_loop_spec text acc :
  choseong_loop text acc = Ok (acc ++ map choseong_of_char_spec text).
Proof.
  revert acc. induction text as [|c text IH]; intros acc; simpl.
  - by rewrite app_nil_r.
  - unfold choseong_of_char_spec at 1.
    change ((44032 <=? c) && (c <=? 55203)) with (hangul_syllable c).
    change ((GA <=? c) && (c <=? HIH)) with (hangul_syllable c).
    destruct (hangul_syllable c) eqn:E.
    + rewrite choseong_getitem by done. rewrite IH.
      by rewrite <- app_assoc.
    + rewrite IH. by rewrite <- app_assoc.
Qed.

Lemma extract_choseong_refines text :
  extract_choseong text = Ok (extract_choseong_spec text).
Proof.
  unfold extract_choseong, extract_choseong_spec, str_isalpha, str_isascii.
  destruct text as [|c text]; [done|].
  cbn [py_not negb andb].
  rewrite forallb_isalpha_isascii.
  destruct (forallb ascii_letter (c :: text)) eqn:E.
  - by rewrite str_lower_letters.
  - apply choseong_loop_spec.
Qed.

(** "날씨" gives "ㄴㅆ", "파이썬" gives "ㅍㅇㅆ"; "AB" is lower-cased and
    "Ab1", which is not alphabetic, is copied. *)
Example extract_choseong_samples :
  extract_choseong [45216; 50472] = Ok [12596; 12614] /\
  extract_choseong [54028; 51060; 50028] = Ok [12621; 12615; 12614] /\
  extract_choseong [65; 66] = Ok [97; 98] /\
  extract_choseong [65; 98; 49] = Ok [65; 98; 49].
Proof. repeat split; reflexivity. Qed.

(** C2: [extract_choseong] never raises and computes the reference
    definition of section 4.1 on every string: the empty string for the
    empty string, the lower-cased input when every character is an ASCII
    letter, and otherwise the input with each syllable of U+AC00..U+D7A3
    replaced by the entry at index (codepoint - 0xAC00) div 588 of the
    19-symbol list; so it maps "" to "", "abc" to "abc" and "안녕" to
    "ㅇㄴ". *)
Theorem extract_choseong_total_spec :
  (forall text, extract_choseong text = Ok (extract_choseong_spec text)) /\
  extract_choseong [] = Ok [] /\
  extract_choseong [97; 98; 99] = Ok [97; 98; 99] /\
  extract_choseong [50504; 45397] = Ok [12615; 12596].
Proof.
  split; [exact extract_choseong_refines|].
  rewrite !extract_choseong_refines. repeat split; reflexivity.
Qed.

(** The symbols of the list are the compatibility jamo U+3131..U+314E,
    not the conjoining jamo U+1100..U+1112. *)
Remark choseong_list_compatibility_jamo :
  Forall (fun x => 0x3131 <= x <= 0x314E) choseong_list /\
  length choseong_list = 19%nat /\
  NoDup choseong_list.
Proof.
  split; [|split; [reflexivity|]].
  - unfold choseong_list. repeat (apply Forall_cons; split; [lia|]).
    apply Forall_nil_2.
  - apply (bool_decide_unpack _). by vm_compute.
Qed.

Lemma choseong_symbol_in_list c :
  hangul_syllable c = true -> In (choseong_of_char_spec c) choseong_list.
Proof.
  intros H. unfold choseong_of_char_spec.
  change ((0xAC00 <=? c) && (c <=? 0xD7A3)) with (hangul_syllable c).
  rewrite H. apply nth_In.
  pose proof (choseong_code_range c H). change (c - 0xAC00) with (c - 44032).
  simpl. lia.
Qed.

Lemma choseong_list_not_hangul x :
  In x choseong_list -> hangul_syllable x = false.
Proof.
  intros H. apply list_elem_of_In in H.
  destruct choseong_list_compatibility_jamo as [Hall _].
  rewrite Forall_forall in Hall. specialize (Hall x H).
  unfold hangul_syllable, GA, HIH. lia.
Qed.

Lemma choseong_list_not_letter x :
  In x choseong_list -> ascii_letter x = false.
Proof.
  intros H. apply list_elem_of_In in H.
  destruct choseong_list_compatibility_jamo as [Hall _].
  rewrite Forall_forall in Hall. specialize (Hall x H).
  unfold ascii_letter, ascii_lower, ascii_upper. lia.
Qed.

Lemma choseong_of_char_other c :
  hangul_syllable c = false -> choseong_of_char_spec c = c.
Proof.
  intros H. unfold choseong_of_char_spec.
  change ((0xAC00 <=? c) && (c <=? 0xD7A3)) with (hangul_syllable c).
  by rewrite H.
Qed.

Lemma choseong_of_char_idem c :
  choseong_of_char_spec (choseong_of_char_spec c) = choseong_of_char_spec c.
Proof.
  destruct (hangul_syllable c) eqn:E.
  - apply choseong_of_char_other, choseong_list_not_hangul.
    by apply choseong_symbol_in_list.
  - by rewrite !(choseong_of_char_other c E).
Qed.

Lemma choseong_of_char_letter c :
  ascii_letter (choseong_of_char_spec c) = ascii_letter c.
Proof.
  destruct (hangul_syllable c) eqn:E.
  - rewrite choseong_list_not_letter by by apply choseong_symbol_in_list.
    unfold hangul_syllable, GA, HIH in E.
    unfold ascii_letter, ascii_lower, ascii_upper. lia.
  - by rewrite choseong_of_char_other.
Qed.

Lemma ascii_to_lower_idem c : ascii_to_lower (ascii_to_lower c) = ascii_to_lower c.
Proof.
  unfold ascii_to_lower.
  destruct (ascii_upper c) eqn:E; [|by rewrite E].
  replace (ascii_upper (c + 32)) with false; [done|].
  unfold ascii_upper in *. lia.
Qed.

Lemma ascii_to_lower_letter c :
  ascii_letter (ascii_to_lower c) = ascii_letter c.
Proof.
  unfold ascii_to_lower.
  destruct (ascii_upper c) eqn:E; [|done].
  unfold ascii_letter, ascii_lower, ascii_upper in *. lia.
Qed.

Lemma forallb_map_same {A} (p : A -> bool) (f : A -> A) (l : list A) :
  (forall x, p (f x) = p x) -> forallb p (map f l) = forallb p l.
Proof.
  intros H. induction l as [|x l IH]; [done|]. simpl. by rewrite H, IH.
Qed.

Lemma extract_choseong_spec_idem s :
  extract_choseong_spec (extract_choseong_spec s) = extract_choseong_spec s.
Proof.
  destruct s as [|c s]; [done|].
  unfold extract_choseong_spec at 2 3.
  destruct (forallb ascii_letter (c :: s)) eqn:E.
  - cbn [map]. unfold extract_choseong_spec.
    change (ascii_to_lower c :: map ascii_to_lower s)
      with (map ascii_to_lower (c :: s)).
    rewrite (forallb_map_same _ _ _ ascii_to_lower_letter).
    rewrite E, map_map. apply map_ext. intros; apply ascii_to_lower_idem.
  - cbn [map]. unfold extract_choseong_spec.
    change (choseong_of_char_spec c :: map choseong_of_char_spec s)
      with (map choseong_of_char_spec (c :: s)).
    rewrite (forallb_map_same _ _ _ choseong_of_char_letter).
    rewrite E, map_map. apply map_ext. intros; apply choseong_of_char_idem.
Qed.

(** C5: on a one-syllable string [extract_choseong] returns one symbol of
    the 19-symbol list; its result is a function of its argument; and it is
    idempotent: applied to its own output it returns that output. *)
Theorem extract_choseong_symbol_idempotent :
  (forall c, hangul_syllable c = true ->
     exists x, In x choseong_list /\ extract_choseong [c] = Ok [x]) /\
  (forall s r1 r2,
     extract_choseong s = r1 -> extract_choseong s = r2 -> r1 = r2) /\
  (forall s, exists t,
     extract_choseong s = Ok t /\ extract_choseong t = Ok t).
Proof.
  split; [|split].
  - intros c H. exists (choseong_of_char_spec c).
    split; [by apply choseong_symbol_in_list|].
    rewrite extract_choseong_refines. unfold extract_choseong_spec.
    cbn [forallb map]. rewrite andb_true_r.
    replace (ascii_letter c) with false; [done|].
    unfold hangul_syllable, GA, HIH in H.
    unfold ascii_letter, ascii_lower, ascii_upper. lia.
  - congruence.
  - intros s. exists (extract_choseong_spec s).
    rewrite !extract_choseong_refines. by rewrite extract_choseong_spec_idem.
Qed.

(** ** Word validators *)

Lemma only_other_match_no_korean w :
  only_other_match w = true -> existsb hangul_syllable w = false.
Proof.
  induction w as [|c w IH]; [done|]. simpl.
  intros [[Hc Hw]%andb_true_iff|Hd]%orb_true_iff.
  - rewrite (IH Hw), orb_false_r.
    unfold non_korean_non_latin in Hc.
    by destruct (hangul_syllable c).
  - destruct w as [|d w]; [|done].
    simpl in *. rewrite orb_false_r.
    unfold hangul_syllable, GA, HIH. lia.
Qed.

Lemma third_check_never_fires w :
  korean_pattern_search w = true -> only_other_match w = false.
Proof.
  intros Hk. destruct (only_other_match w) eqn:E; [|done].
  apply only_other_match_no_korean in E.
  unfold korean_pattern_search in Hk. congruence.
Qed.

Lemma is_valid_korean_word_eq w :
  is_valid_korean_word w = (2 <=? len w) && existsb hangul_syllable w.
Proof.
  unfold is_valid_korean_word.
  destruct w as [|c w]; [done|]. cbn [py_not orb].
  replace (len (c :: w) <? 2) with (negb (2 <=? len (c :: w))) by lia.
  destruct (2 <=? len (c :: w)); [|done]. cbn [negb andb].
  destruct (korean_pattern_search (c :: w)) eqn:Hk.
  - cbn [negb]. rewrite (third_check_never_fires _ Hk). by rewrite <- Hk.
  - cbn [negb]. by rewrite <- Hk.
Qed.

(** "가" is too short, "안녕" is valid, "123" has no syllable, and
    "12\n" is what the third check is about. *)
Example is_valid_korean_word_samples :
  is_valid_korean_word [44032] = false /\
  is_valid_korean_word [50504; 45397] = true /\
  is_valid_korean_word [49; 50; 51] = false /\
  only_other_match [49; 50; 10] = true /\
  only_other_match [49; 97] = false.
Proof. repeat split; reflexivity. Qed.

(** C9: [_is_valid_korean_word] accepts exactly the words of length at
    least 2 that contain a character of U+AC00..U+D7A3; its third check
    never fires on a word that passed the second. *)
Theorem is_valid_korean_word_two_checks :
  (forall w, is_valid_korean_word w =
             (2 <=? len w) && existsb hangul_syllable w) /\
  (forall w, korean_pattern_search w = true -> only_other_match w = false).
Proof.
  split; [exact is_valid_korean_word_eq|exact third_check_never_fires].
Qed.

(** "a" is too short, "hello" is valid, and 51 letters are too many. *)
Example is_valid_english_word_samples :
  is_valid_english_word [97] = false /\
  is_valid_english_word [104; 101; 108; 108; 111] = true /\
  is_valid_english_word (repeat 97 51) = false /\
  is_valid_english_word (repeat 97 50) = true.
Proof. repeat split; reflexivity. Qed.

(** C10: [_is_valid_english_word] accepts every string of 2 to 50
    characters that [str.isalpha] accepts, whether or not they are ASCII;
    it accepts "안녕", which contains no ASCII letter. *)
Theorem is_valid_english_word_any_alphabet :
  (forall w, 2 <= len w <= 50 -> forallb isalpha_cp w = true ->
             is_valid_english_word w = true) /\
  is_valid_english_word [50504; 45397] = true /\
  existsb ascii_letter [50504; 45397] = false /\
  existsb is_ascii [50504; 45397] = false.
Proof.
  split; [|repeat split; reflexivity].
  intros w Hlen Ha. unfold is_valid_english_word, str_isalpha.
  destruct w as [|c w]; [unfold len in Hlen; simpl in Hlen; lia|].
  cbn [py_not orb negb andb]. rewrite Ha.
  replace (len (c :: w) <? 2) with false by lia.
  replace (len (c :: w) >? 50) with false by lia.
  done.
Qed.

Lemma is_valid_english_word_inv w :
  is_valid_english_word w = true ->
  2 <= len w <= 50 /\ str_isalpha w = true.
Proof.
  unfold is_valid_english_word.
  destruct (py_not w || (len w <? 2)) eqn:E1; [done|].
  destruct (str_isalpha w) eqn:E2; [|done]. cbn [negb].
  destruct (len w >? 50) eqn:E3; [done|].
  intros _. apply orb_false_iff in E1 as [_ E1]. lia.
Qed.

(** ** English word extractor *)

(** [findall] on "hello world", on "hello안녕 ab" (no boundary between
    "o" and "안"), on "a1bc de_f gh" and on "ab-cd". *)
Example english_pattern_findall_samples :
  english_pattern_findall
    [104; 101; 108; 108; 111; 32; 119; 111; 114; 108; 100] =
  [[104; 101; 108; 108; 111]; [119; 111; 114; 108; 100]] /\
  english_pattern_findall
    [104; 101; 108; 108; 111; 50504; 45397; 32; 97; 98] = [[97; 98]] /\
  english_pattern_findall
    [97; 49; 98; 99; 32; 100; 101; 95; 102; 32; 103; 104] = [[103; 104]] /\
  english_pattern_findall [97; 98; 45; 99; 100] = [[97; 98]; [99; 100]] /\
  _extract_english_words [65; 98; 32; 99; 68; 32; 120] =
  [[97; 98]; [99; 100]].
Proof. repeat split; reflexivity. Qed.

Lemma take_while_Forall {A} (p : A -> bool) l :
  Forall (fun x => p x = true) (take_while p l).
Proof.
  induction l as [|x l IH]; simpl; [constructor|].
  destruct (p x) eqn:E; by constructor.
Qed.

Lemma letters_then_boundary_inv run rest n m :
  letters_then_boundary run rest n = Some m ->
  exists k, (2 <= k)%nat /\ (k <= n)%nat /\ m = take k run.
Proof.
  induction n as [|n IH]; [done|]. cbn [letters_then_boundary].
  destruct ((2 <=? S n)%nat &&
            word_boundary (last (take (S n) run))
              (head (drop (S n) run ++ rest))) eqn:E.
  - intros [= <-]. exists (S n). apply andb_true_iff in E as [E _].
    apply Nat.leb_le in E. done.
  - intros H. destruct (IH H) as (k & ? & ? & ?). exists k. repeat split; lia || done.
Qed.

Lemma english_pattern_match_at_inv prev s m :
  english_pattern_match_at prev s = Some m ->
  (2 <= length m)%nat /\ Forall (fun c => ascii_letter c = true) m.
Proof.
  unfold english_pattern_match_at.
  destruct (word_boundary prev (head s)); [|done].
  intros H. apply letters_then_boundary_inv in H as (k & Hk & Hn & ->).
  split.
  - rewrite length_take. lia.
  - apply Forall_take, take_while_Forall.
Qed.

Lemma english_pattern_scan_inv prev s inside :
  Forall (fun m => (2 <= length m)%nat /\
                   Forall (fun c => ascii_letter c = true) m)
    (english_pattern_scan prev s inside).
Proof.
  revert prev inside. induction s as [|c s IH]; intros prev inside.
  - constructor.
  - cbn [english_pattern_scan]. destruct inside as [|k]; [|apply IH].
    destruct (english_pattern_match_at prev (c :: s)) eqn:E; [|apply IH].
    constructor; [|apply IH]. by apply english_pattern_match_at_inv in E.
Qed.

Lemma english_words_loop_spec ws acc :
  english_words_loop ws acc =
  acc ++ map str_lower (List.filter is_valid_english_word ws).
Proof.
  revert acc. induction ws as [|w ws IH]; intros acc; simpl.
  - by rewrite app_nil_r.
  - destruct (is_valid_english_word w); rewrite IH; [|done].
    by rewrite <- app_assoc.
Qed.

(** Every English word extracted is a lower-case ASCII word of 2 to 50
    letters. *)
Lemma _extract_english_words_inv sentence w :
  In w (_extract_english_words sentence) ->
  2 <= len w <= 50 /\ forallb ascii_lower w = true.
Proof.
  unfold _extract_english_words. rewrite english_words_loop_spec. simpl.
  intros (m & <- & Hm)%in_map_iff.
  apply filter_In in Hm as [Hm Hv].
  pose proof (english_pattern_scan_inv None sentence 0) as Hall.
  rewrite Forall_forall in Hall.
  apply list_elem_of_In, Hall in Hm as [_ Hlet].
  apply is_valid_english_word_inv in Hv as [Hlen _].
  assert (forallb ascii_letter m = true) as Hb.
  { apply forallb_forall. intros x Hx.
    rewrite Forall_forall in Hlet. by apply Hlet, list_elem_of_In. }
  rewrite (str_lower_letters _ Hb). unfold len in *. rewrite length_map.
  split; [done|].
  apply forallb_forall. intros x (y & <- & Hy)%in_map_iff.
  rewrite forallb_forall in Hb. specialize (Hb y Hy).
  unfold ascii_to_lower. destruct (ascii_upper y) eqn:E.
  - unfold ascii_lower, ascii_upper in *. lia.
  - unfold ascii_letter in Hb. rewrite E, orb_false_r in Hb. done.
Qed.

(** ** Runs of the monadic code *)

Lemma extend_nil w : extend [] [] w = w.
Proof. destruct w. unfold extend. simpl. by rewrite !app_nil_r. Qed.

Lemma extend_extend l1 c1 l2 c2 w :
  extend l2 c2 (extend l1 c1 w) = extend (l1 ++ l2) (c1 ++ c2) w.
Proof. unfold extend. simpl. by rewrite !app_assoc. Qed.

Lemma extend_eq l1 l2 c1 c2 w :
  l1 = l2 -> c1 = c2 -> extend l1 c1 w = extend l2 c2 w.
Proof. by intros -> ->. Qed.

Lemma log_run l m w : log l m w = (Ok tt, extend [(l, m)] [] w).
Proof. unfold log, extend. by rewrite app_nil_r. Qed.

Lemma call_run c w : call c w = (Ok tt, extend [] [c] w).
Proof. unfold call, extend. by rewrite app_nil_r. Qed.

Lemma bind_run_ok {A B} (m : M A) (k : A -> M B) w a w' :
  m w = (Ok a, w') -> bind m k w = k a w'.
Proof. unfold bind. by intros ->. Qed.

Lemma bind_run_raise {A B} (m : M A) (k : A -> M B) w e w' :
  m w = (Raise e, w') -> bind m k w = (Raise e, w').
Proof. unfold bind. by intros ->. Qed.

Lemma try_run_ok {A} (m : M A) h w a w' :
  m w = (Ok a, w') -> try_except m h w = (Ok a, w').
Proof. unfold try_except. by intros ->. Qed.

Lemma try_run_raise {A} (m : M A) h w e w' :
  m w = (Raise e, w') -> try_except m h w = h e w'.
Proof. unfold try_except. by intros ->. Qed.

Lemma korean_words_loop_spec morphs pos_filter acc :
  korean_words_loop morphs pos_filter acc =
  acc ++ map fst (List.filter
                    (fun m => pos_accepted pos_filter (snd m) &&
                              is_valid_korean_word (fst m)) morphs).
Proof.
  revert acc. induction morphs as [|[x t] morphs IH]; intros acc; simpl.
  - by rewrite app_nil_r.
  - destruct (pos_accepted pos_filter t); simpl; [|apply IH].
    destruct (is_valid_korean_word x); rewrite IH; [|done].
    by rewrite <- app_assoc.
Qed.

Lemma _extract_korean_words_run sentence pos_filter w :
  _extract_korean_words sentence pos_filter w =
  (Ok (korean_words sentence pos_filter),
   extend match pos_reply sentence with
          | Ok _ => []
          | Raise e => [(ERROR, MsgMorphemeError e)]
          end [] w).
Proof.
  unfold _extract_korean_words, korean_words, pos_reply, try_except, bind,
    lift, ret.
  destruct (if bool_decide (analyzer_type = okt)
            then analyzer_pos true sentence
            else analyzer_pos false sentence) as [morphs|e].
  - by rewrite extend_nil.
  - by rewrite log_run.
Qed.

Lemma extract_words_from_sentence_run sentence pos_filter w :
  extract_words_from_sentence sentence pos_filter w =
  (Ok (sentence_words sentence pos_filter),
   extend (sentence_log sentence) [] w).
Proof.
  unfold extract_words_from_sentence, sentence_words, sentence_log.
  fold (blank sentence). destruct (blank sentence).
  - unfold ret. by rewrite extend_nil.
  - apply try_run_ok.
    erewrite bind_run_ok by apply _extract_korean_words_run.
    reflexivity.
Qed.

Lemma append_word_data_run extracted words w :
  append_word_data extracted words w =
  (Ok (words ++ word_records extracted), w).
Proof.
  revert words. induction extracted as [|x extracted IH]; intros words.
  - simpl. unfold ret. by rewrite app_nil_r.
  - cbn [append_word_data]. unfold bind, lift.
    rewrite extract_choseong_refines, IH. simpl. by rewrite <- app_assoc.
Qed.

(** *** The paging loop *)

Lemma for_each_accumulates {A} pos_filter
    (body : A -> list word_data * Z -> M (list word_data * Z)) sentences :
  accumulates pos_filter body sentences ->
  accumulates pos_filter (fun l => for_each l body) (flat_map sentences).
Proof.
  intros Hbody l. induction l as [|x l IH]; intros st w.
  - simpl. unfold ret, corpus_records. simpl.
    rewrite app_nil_r, Z.add_0_r, extend_nil. by destruct st.
  - cbn [for_each flat_map].
    erewrite bind_run_ok by apply Hbody. rewrite IH. cbn [fst snd].
    unfold corpus_records, len.
    rewrite !flat_map_app, !length_app, extend_extend, <- !app_assoc.
    do 3 f_equal. lia.
Qed.

Lemma process_field_accumulates pos_filter source :
  accumulates pos_filter (process_field pos_filter source)
    (field_sentences source).
Proof.
  intros field st w. unfold process_field, field_sentences.
  destruct (source !! field) as [sentence|].
  - destruct sentence as [|c sentence].
    + simpl. unfold ret, corpus_records. simpl.
      rewrite app_nil_r, Z.add_0_r, extend_nil. by destruct st.
    + cbn [py_not].
      erewrite bind_run_ok by apply extract_words_from_sentence_run.
      erewrite bind_run_ok by apply append_word_data_run.
      unfold ret, corpus_records. simpl. by rewrite !app_nil_r.
  - unfold ret, corpus_records. simpl.
    rewrite app_nil_r, Z.add_0_r, extend_nil. by destruct st.
Qed.

Lemma page_accumulates pos_filter sentence_fields :
  accumulates pos_filter
    (fun hits => for_each hits
       (fun source => for_each sentence_fields
                        (process_field pos_filter source)))
    (page_sentences sentence_fields).
Proof.
  apply for_each_accumulates.
  intros source.
  apply (for_each_accumulates _ _ _ (process_field_accumulates _ source)).
Qed.

Lemma scroll_loop_run pos_filter replies scroll_id sentence_fields hits st w :
  scroll_loop replies scroll_id sentence_fields pos_filter hits st w =
  (Ok (fst st ++ corpus_records pos_filter
                   (flat_map (page_sentences sentence_fields)
                      (fetched_pages replies hits)),
       snd st + len (flat_map (page_sentences sentence_fields)
                       (fetched_pages replies hits))),
   extend (scroll_log sentence_fields replies hits)
     (map (fun _ => CallScroll scroll_id) (fetched_pages replies hits)) w).
Proof.
  revert hits st w. induction replies as [|[hits'|e] replies IH];
    intros hits st w.
  - destruct hits as [|h hits].
    + simpl. unfold ret, corpus_records. simpl.
      rewrite app_nil_r, Z.add_0_r, extend_nil. by destruct st.
    + cbn [scroll_loop fetched_pages scroll_log flat_map map].
      erewrite bind_run_ok
        by apply (page_accumulates pos_filter sentence_fields (h :: hits)).
      erewrite bind_run_ok by apply call_run.
      unfold ret. rewrite extend_extend, !app_nil_r. done.
  - destruct hits as [|h hits].
    + simpl. unfold ret, corpus_records. simpl.
      rewrite app_nil_r, Z.add_0_r, extend_nil. by destruct st.
    + cbn [scroll_loop fetched_pages scroll_log flat_map map].
      erewrite bind_run_ok
        by apply (page_accumulates pos_filter sentence_fields (h :: hits)).
      erewrite bind_run_ok by apply call_run.
      rewrite IH. cbn [fst snd].
      unfold corpus_records, len.
      rewrite !flat_map_app, !length_app, !extend_extend, <- !app_assoc.
      cbn [app]. do 3 f_equal. lia.
  - destruct hits as [|h hits].
    + simpl. unfold ret, corpus_records. simpl.
      rewrite app_nil_r, Z.add_0_r, extend_nil. by destruct st.
    + cbn [scroll_loop fetched_pages scroll_log flat_map map].
      erewrite bind_run_ok
        by apply (page_accumulates pos_filter sentence_fields (h :: hits)).
      erewrite bind_run_ok by apply call_run.
      erewrite bind_run_ok by apply log_run.
      unfold ret. rewrite !extend_extend, !app_nil_r. done.
Qed.

(** *** [extract_words_from_index] *)

Lemma clear_scroll_run scroll_id w :
  try_except
    (call (CallClearScroll scroll_id) ;;; lift (clear_scroll_reply srv))
    (fun _ => ret tt) w =
  (Ok tt, extend [] [CallClearScroll scroll_id] w).
Proof.
  unfold try_except. erewrite bind_run_ok by apply call_run.
  unfold lift, ret. by destruct (clear_scroll_reply srv) as [[]|].
Qed.

Lemma extract_words_from_index_run source_index sentence_fields pos_filter
    scroll_id hits w :
  search_reply srv = Ok (scroll_id, hits) ->
  extract_words_from_index source_index sentence_fields pos_filter w =
  (Ok (corpus_records pos_filter (corpus_sentences sentence_fields hits)),
   extend (index_log sentence_fields pos_filter hits)
     (index_calls source_index sentence_fields scroll_id hits) w).
Proof.
  intros Hsearch. unfold extract_words_from_index. apply try_run_ok.
  erewrite bind_run_ok by apply call_run.
  erewrite bind_run_ok by (unfold lift; by rewrite Hsearch).
  cbn [fst snd].
  erewrite bind_run_ok by apply scroll_loop_run.
  erewrite bind_run_ok by apply clear_scroll_run.
  erewrite bind_run_ok by apply log_run.
  unfold ret, index_log, index_calls, corpus_sentences. cbn [fst snd].
  rewrite !extend_extend, !app_nil_r, Z.add_0_l. cbn [app]. done.
Qed.

Lemma extract_words_from_index_raise source_index sentence_fields pos_filter
    e w :
  search_reply srv = Raise e ->
  extract_words_from_index source_index sentence_fields pos_filter w =
  (Raise e, extend [(ERROR, MsgExtractIndexError e)]
              [CallSearch source_index sentence_fields] w).
Proof.
  intros Hsearch. unfold extract_words_from_index.
  rewrite (try_run_raise _ _ w e
             (extend [] [CallSearch source_index sentence_fields] w)).
  - erewrite bind_run_ok by apply log_run. unfold raise.
    by rewrite extend_extend.
  - erewrite bind_run_ok by apply call_run.
    apply bind_run_raise. unfold lift. by rewrite Hsearch.
Qed.

(** *** [index_words_to_auto_search] *)

Lemma bulk_data_loop_spec words target_index bulk_data :
  bulk_data_loop words target_index bulk_data =
  bulk_data ++ bulk_lines target_index words.
Proof.
  revert bulk_data. induction words as [|r words IH]; intros bulk_data.
  - simpl. by rewrite app_nil_r.
  - cbn [bulk_data_loop]. rewrite IH. unfold bulk_lines. cbn [flat_map].
    by rewrite <- app_assoc.
Qed.

Lemma log_item_errors_run its w :
  for_each its log_item_error tt w =
  (Ok tt, extend (flat_map (fun item => match item with
                                        | Some err =>
                                            [(ERROR, MsgBulkItemError err)]
                                        | None => []
                                        end) its) [] w).
Proof.
  revert w. induction its as [|[err|] its IH]; intros w.
  - simpl. unfold ret. by rewrite extend_nil.
  - cbn [for_each flat_map log_item_error].
    erewrite bind_run_ok by apply log_run. rewrite IH.
    by rewrite extend_extend.
  - cbn [for_each flat_map log_item_error].
    unfold bind, ret. rewrite IH. done.
Qed.

Lemma index_words_to_auto_search_empty target_index w :
  index_words_to_auto_search [] target_index w =
  (Ok tt, extend [(WARNING, MsgNoWordsToIndex)] [] w).
Proof. unfold index_words_to_auto_search. cbn [py_not]. apply log_run. Qed.

Lemma index_words_to_auto_search_run r words target_index w :
  index_words_to_auto_search (r :: words) target_index w =
  (bulk_outcome,
   extend (bulk_log (r :: words))
     [CallBulk (bulk_lines target_index (r :: words))] w).
Proof.
  unfold index_words_to_auto_search, bulk_outcome, bulk_log.
  cbn [py_not]. rewrite bulk_data_loop_spec. cbn [app].
  cbn [bulk_lines flat_map app py_not negb].
  unfold try_except. erewrite bind_run_ok by apply call_run.
  unfold bind, lift. destruct (bulk_reply srv) as [response|e].
  - destruct (errors response).
    + rewrite log_run, log_item_errors_run, !extend_extend. done.
    + rewrite log_run, !extend_extend. done.
  - rewrite log_run. unfold raise. by rewrite !extend_extend.
Qed.

(** *** [process_words_from_source_index] *)

Lemma process_words_raise source_index sentence_fields target_index
    pos_filter e w :
  search_reply srv = Raise e ->
  process_words_from_source_index source_index sentence_fields target_index
    pos_filter w =
  (Raise e,
   extend [(INFO, MsgExtracting source_index);
           (ERROR, MsgExtractIndexError e);
           (ERROR, MsgPipelineError e)]
     [CallSearch source_index sentence_fields] w).
Proof.
  intros Hsearch. unfold process_words_from_source_index.
  rewrite (try_run_raise _ _ w e
             (extend [(INFO, MsgExtracting source_index);
                      (ERROR, MsgExtractIndexError e)]
                [CallSearch source_index sentence_fields] w)).
  - erewrite bind_run_ok by apply log_run. unfold raise.
    by rewrite extend_extend.
  - erewrite bind_run_ok by apply log_run.
    erewrite bind_run_raise
      by (by apply extract_words_from_index_raise).
    by rewrite extend_extend.
Qed.

Lemma process_words_run source_index sentence_fields target_index
    pos_filter scroll_id hits w :
  search_reply srv = Ok (scroll_id, hits) ->
  let words :=
    corpus_records pos_filter (corpus_sentences sentence_fields hits) in
  process_words_from_source_index source_index sentence_fields target_index
    pos_filter w =
  (write_outcome words,
   extend ([(INFO, MsgExtracting source_index)] ++
           index_log sentence_fields pos_filter hits ++
           write_log target_index words)
     (index_calls source_index sentence_fields scroll_id hits ++
      write_calls target_index words) w).
Proof.
  intros Hsearch words. unfold process_words_from_source_index.
  unfold try_except.
  erewrite bind_run_ok by apply log_run.
  erewrite bind_run_ok by (by apply extract_words_from_index_run).
  fold words. destruct words as [|r words'] eqn:E.
  - cbn [py_not negb write_outcome write_log write_calls].
    rewrite log_run, !extend_extend, !app_nil_r. done.
  - cbn [py_not negb write_outcome write_log write_calls].
    erewrite bind_run_ok by apply log_run.
    unfold bind at 1. rewrite index_words_to_auto_search_run.
    unfold bulk_outcome. destruct (bulk_reply srv) as [response|e].
    + rewrite log_run, !extend_extend.
      f_equal; try (apply extend_eq; same_lists).
    + erewrite bind_run_ok by apply log_run. unfold raise.
      rewrite !extend_extend.
      f_equal; try (apply extend_eq; same_lists).
Qed.

(** ** Per-sentence extraction *)

Lemma drop_while_nil {A} (p : A -> bool) l :
  py_not (drop_while p l) = forallb p l.
Proof.
  induction l as [|x l IH]; [done|]. simpl. by destruct (p x).
Qed.

Lemma forallb_rev {A} (p : A -> bool) l : forallb p (rev l) = forallb p l.
Proof.
  induction l as [|x l IH]; [done|]. simpl.
  rewrite forallb_app, IH. simpl. rewrite andb_true_r. apply andb_comm.
Qed.

Lemma py_not_rev {A} (l : list A) : py_not (rev l) = py_not l.
Proof.
  destruct l as [|x l]; [done|]. simpl. by destruct (rev l).
Qed.

Lemma drop_while_forallb {A} (p : A -> bool) l :
  forallb p l = false -> forallb p (drop_while p l) = false.
Proof.
  induction l as [|x l IH]; [done|]. simpl.
  destruct (p x) eqn:E; [done|]. intros _. simpl. by rewrite E.
Qed.

(** A sentence is blank exactly when all its characters are whitespace. *)
Lemma blank_spec sentence : blank sentence = forallb isspace_cp sentence.
Proof.
  unfold blank, str_strip. rewrite py_not_rev, drop_while_nil, forallb_rev.
  destruct (forallb isspace_cp sentence) eqn:E.
  - rewrite <- drop_while_nil in E.
    destruct (drop_while isspace_cp sentence); [|done].
    apply orb_true_r.
  - rewrite (drop_while_forallb _ _ E).
    by destruct sentence.
Qed.

Lemma sentence_words_NoDup sentence pos_filter :
  NoDup (sentence_words sentence pos_filter).
Proof.
  unfold sentence_words, list_set.
  destruct (blank sentence); [constructor|apply NoDup_elements].
Qed.

Lemma elem_of_sentence_words sentence pos_filter x :
  blank sentence = false ->
  x ∈ sentence_words sentence pos_filter <->
  x ∈ _extract_english_words sentence ++ korean_words sentence pos_filter.
Proof.
  intros Hb. unfold sentence_words, list_set. rewrite Hb.
  rewrite elem_of_elements. apply elem_of_list_to_set.
Qed.

Lemma count_NoDup (x : list Z) (l : list (list Z)) :
  NoDup l ->
  length (List.filter (fun y => bool_decide (y = x)) l) =
  if bool_decide (x ∈ l) then 1%nat else 0%nat.
Proof.
  induction 1 as [|y l Hy Hl IH]; [done|]. simpl.
  destruct (decide (y = x)) as [->|Hne].
  - rewrite bool_decide_eq_true_2 by done. simpl. rewrite IH.
    rewrite (bool_decide_eq_false_2 (x ∈ l)) by done.
    rewrite bool_decide_eq_true_2; [done|]. by left.
  - rewrite bool_decide_eq_false_2 by done. rewrite IH.
    assert (bool_decide (x ∈ y :: l) = bool_decide (x ∈ l)) as ->; [|done].
    apply bool_decide_ext. rewrite elem_of_cons.
    split; [intros [->|?]; [by destruct Hne|done]|by right].
Qed.

Lemma occurrences_app x l1 l2 :
  occurrences x (l1 ++ l2) = (occurrences x l1 + occurrences x l2)%nat.
Proof. unfold occurrences. by rewrite List.filter_app, length_app. Qed.

Lemma occurrences_word_records x ws :
  NoDup ws ->
  occurrences x (word_records ws) =
  if bool_decide (x ∈ ws) then 1%nat else 0%nat.
Proof.
  intros Hnd. rewrite <- (count_NoDup x ws Hnd).
  unfold occurrences, word_records. clear Hnd.
  induction ws as [|y ws IH]; [done|]. simpl.
  destruct (bool_decide (y = x)); simpl; by rewrite IH.
Qed.

Lemma occurrences_corpus_records x pos_filter sentences :
  occurrences x (corpus_records pos_filter sentences) =
  length (List.filter
            (fun s => bool_decide (x ∈ sentence_words s pos_filter))
            sentences).
Proof.
  induction sentences as [|s sentences IH]; [done|].
  unfold corpus_records in *. cbn [flat_map List.filter].
  rewrite occurrences_app, IH.
  rewrite occurrences_word_records by apply sentence_words_NoDup.
  by destruct (bool_decide (x ∈ sentence_words s pos_filter)).
Qed.

Lemma elem_of_corpus_records r pos_filter sentences :
  r ∈ corpus_records pos_filter sentences ->
  exists s, s ∈ sentences /\ word r ∈ sentence_words s pos_filter /\
            r = WordData (word r) (extract_choseong_spec (word r)) None None.
Proof.
  unfold corpus_records. rewrite list_elem_of_In, in_flat_map.
  intros (s & Hs & Hr). exists s. split; [by apply list_elem_of_In|].
  unfold word_records in Hr. apply in_map_iff in Hr as (x & <- & Hx).
  split; [by apply list_elem_of_In|done].
Qed.

(** *** Validity of the extracted words *)

Lemma lower_word_isalpha w :
  2 <= len w -> forallb ascii_lower w = true -> str_isalpha w = true.
Proof.
  intros Hlen Hw. unfold str_isalpha.
  destruct w as [|c w]; [unfold len in Hlen; simpl in Hlen; lia|].
  cbn [py_not negb andb]. apply forallb_forall. intros x Hx.
  rewrite forallb_forall in Hw. specialize (Hw x Hx).
  unfold isalpha_cp, ascii_letter. rewrite Hw. cbn [orb].
  replace (is_ascii x) with true; [done|].
  unfold ascii_lower, is_ascii in *. lia.
Qed.

Lemma korean_words_valid sentence pos_filter x :
  x ∈ korean_words sentence pos_filter -> is_valid_korean_word x = true.
Proof.
  unfold korean_words. destruct (pos_reply sentence) as [morphs|e].
  - rewrite korean_words_loop_spec. cbn [app].
    rewrite list_elem_of_In, in_map_iff.
    intros ([y t] & <- & Hy). apply filter_In in Hy as [_ Hy].
    by apply andb_true_iff in Hy as [_ Hy].
  - by rewrite elem_of_nil.
Qed.

Lemma sentence_words_valid sentence pos_filter x :
  x ∈ sentence_words sentence pos_filter -> valid_word x.
Proof.
  destruct (blank sentence) eqn:Hb.
  - unfold sentence_words. rewrite Hb. by rewrite elem_of_nil.
  - rewrite (elem_of_sentence_words _ _ _ Hb), elem_of_app.
    intros [He|Hk].
    + apply list_elem_of_In, _extract_english_words_inv in He as [Hlen Hlow].
      split; [lia|]. right. split; [|done].
      apply lower_word_isalpha; [lia|done].
    + apply korean_words_valid in Hk.
      rewrite is_valid_korean_word_eq in Hk. apply andb_true_iff in Hk as [Hlen Hk].
      split; [lia|]. by left.
Qed.

(** C7: the extraction of the words of a sentence always returns, and
    returns a list without duplicates: an English word or an accepted
    valid analyzer token of the sentence is in it exactly once, however
    often it occurs; on an empty or whitespace-only sentence the result is
    empty and nothing is logged. *)
Theorem extract_words_from_sentence_is_a_set sentence pos_filter w :
  exists ws,
    returned (extract_words_from_sentence sentence pos_filter) w = Ok ws /\
    NoDup ws /\
    (forall x, forallb isspace_cp sentence = false ->
       x ∈ _extract_english_words sentence ->
       length (List.filter (fun y => bool_decide (y = x)) ws) = 1%nat) /\
    (forall morphs x t, forallb isspace_cp sentence = false ->
       pos_reply sentence = Ok morphs -> (x, t) ∈ morphs ->
       pos_accepted pos_filter t = true -> is_valid_korean_word x = true ->
       length (List.filter (fun y => bool_decide (y = x)) ws) = 1%nat) /\
    (forallb isspace_cp sentence = true ->
       ws = [] /\
       world_after (extract_words_from_sentence sentence pos_filter) w = w).
Proof.
  exists (sentence_words sentence pos_filter).
  unfold returned, world_after. rewrite extract_words_from_sentence_run.
  cbn [fst snd].
  assert (forall x, blank sentence = false ->
            x ∈ _extract_english_words sentence ++
                korean_words sentence pos_filter ->
            length (List.filter (fun y => bool_decide (y = x))
                      (sentence_words sentence pos_filter)) = 1%nat) as Hone.
  { intros x Hb Hx.
    rewrite count_NoDup by apply sentence_words_NoDup.
    rewrite bool_decide_eq_true_2; [done|].
    by apply elem_of_sentence_words. }
  split; [done|]. split; [apply sentence_words_NoDup|].
  rewrite <- blank_spec. split; [|split].
  - intros x Hb Hx. apply Hone; [done|]. apply elem_of_app. by left.
  - intros morphs x t Hb Hpos Hin Hacc Hval. apply Hone; [done|].
    apply elem_of_app. right. unfold korean_words. rewrite Hpos.
    rewrite korean_words_loop_spec. cbn [app].
    apply list_elem_of_In, in_map_iff. exists (x, t). split; [done|].
    apply filter_In. split; [by apply list_elem_of_In|].
    cbn [fst snd]. by rewrite Hacc, Hval.
  - intros Hb. unfold sentence_words, sentence_log. rewrite Hb.
    split; [done|apply extend_nil].
Qed.

(** C4: every word returned by the extraction of a sentence, and the word
    of every dictionary returned by [extract_words_from_index], has length
    at least 2 and contains a Korean syllable or is alphabetic of length 2
    to 50; empty and whitespace-only sentences give no word and no
    dictionary. *)
Theorem emitted_words_are_valid :
  (forall sentence pos_filter w, exists ws,
     returned (extract_words_from_sentence sentence pos_filter) w = Ok ws /\
     (forall x, x ∈ ws -> valid_word x) /\
     (forallb isspace_cp sentence = true -> ws = [])) /\
  (forall source_index sentence_fields pos_filter w words,
     returned (extract_words_from_index source_index sentence_fields
                 pos_filter) w = Ok words ->
     forall r, r ∈ words -> valid_word (word r)) /\
  (forall pos_filter sentences,
     Forall (fun s => forallb isspace_cp s = true) sentences ->
     corpus_records pos_filter sentences = []).
Proof.
  split; [|split].
  - intros sentence pos_filter w.
    exists (sentence_words sentence pos_filter).
    unfold returned. rewrite extract_words_from_sentence_run.
    split; [done|]. split.
    + intros x. apply sentence_words_valid.
    + rewrite <- blank_spec. intros Hb. unfold sentence_words. by rewrite Hb.
  - intros source_index sentence_fields pos_filter w words.
    unfold returned. destruct (search_reply srv) as [[scroll_id hits]|e] eqn:E.
    + rewrite (extract_words_from_index_run _ _ _ _ _ _ E). cbn [fst].
      intros [= <-] r Hr.
      apply elem_of_corpus_records in Hr as (s & _ & Hr & _).
      by apply sentence_words_valid in Hr.
    + by rewrite (extract_words_from_index_raise _ _ _ _ _ E).
  - intros pos_filter sentences Hall.
    induction Hall as [|s sentences Hs _ IH]; [done|].
    unfold corpus_records in *. cbn [flat_map]. rewrite IH, app_nil_r.
    unfold sentence_words. by rewrite blank_spec, Hs.
Qed.

(** ** The aggregation step *)

(** C1 (as the code has it): [extract_words_from_index] returns the
    dictionaries of the first sentence, then those of the second, and so
    on, without removing anything: a word has as many dictionaries as
    there are sentences whose extraction yields it, all of them equal to
    the word with its choseong, and the list is what the bulk write
    receives. *)
Theorem extract_words_from_index_keeps_duplicates source_index
    sentence_fields target_index pos_filter scroll_id hits w :
  search_reply srv = Ok (scroll_id, hits) ->
  exists words,
    returned (extract_words_from_index source_index sentence_fields
                pos_filter) w = Ok words /\
    words = flat_map (fun s => word_records (sentence_words s pos_filter))
              (corpus_sentences sentence_fields hits) /\
    (forall x, occurrences x words =
               length (List.filter
                         (fun s => bool_decide
                                     (x ∈ sentence_words s pos_filter))
                         (corpus_sentences sentence_fields hits))) /\
    (forall r, r ∈ words ->
       r = WordData (word r) (extract_choseong_spec (word r)) None None) /\
    (words <> [] ->
     In (CallBulk (bulk_lines target_index words))
       (w_calls (world_after
                   (process_words_from_source_index source_index
                      sentence_fields target_index pos_filter) w))).
Proof.
  intros Hsearch.
  exists (corpus_records pos_filter (corpus_sentences sentence_fields hits)).
  unfold returned, world_after.
  rewrite (extract_words_from_index_run _ _ _ _ _ _ Hsearch).
  rewrite (process_words_run _ _ _ _ _ _ _ Hsearch).
  cbn [fst snd]. repeat split.
  - intros x. apply occurrences_corpus_records.
  - intros r Hr. by apply elem_of_corpus_records in Hr as (s & _ & _ & Hr).
  - intros Hne.
    destruct (corpus_records pos_filter
                (corpus_sentences sentence_fields hits)) as [|r words];
      [done|].
    unfold extend. cbn [w_calls write_calls].
    apply in_or_app. right. apply in_or_app. right. by left.
Qed.

Lemma unique_words_loop_lookup all_words unique_words x :
  unique_words_loop all_words unique_words !! x =
  match unique_words !! x with
  | Some r => Some r
  | None => head (List.filter (fun r => bool_decide (word r = x)) all_words)
  end.
Proof.
  revert unique_words.
  induction all_words as [|r all_words IH]; intros unique_words.
  - simpl. by destruct (unique_words !! x).
  - cbn [unique_words_loop List.filter].
    destruct (unique_words !! word r) eqn:E; rewrite IH.
    + destruct (decide (word r = x)) as [<-|Hne].
      * by rewrite E.
      * by rewrite (bool_decide_eq_false_2 _ Hne).
    + destruct (decide (word r = x)) as [<-|Hne].
      * rewrite lookup_insert_eq, E.
        by rewrite bool_decide_eq_true_2.
      * rewrite lookup_insert_ne by done.
        by rewrite (bool_decide_eq_false_2 _ Hne).
Qed.

(** The deduplication of [test_complete_pipeline] keeps, for each word,
    the first dictionary of the list that is about it. *)
Theorem unique_words_first_seen all_words x :
  unique_words_loop all_words ∅ !! x =
  head (List.filter (fun r => bool_decide (word r = x)) all_words).
Proof. rewrite unique_words_loop_lookup. by rewrite lookup_empty. Qed.

(** ** Failures *)

(** C3 (as the code has it): when the search call fails, the error is
    logged by the extraction step and by the pipeline, the pipeline ends
    with that error, and the only client call made is the search.  An
    analyzer failure is logged inside the extraction of the sentence, which
    still returns the English words of the sentence.  Once the search call
    has succeeded, the pipeline ends as its write step does, on the
    dictionaries of the pages fetched. *)
Theorem search_failure_aborts_analyzer_failure_absorbed :
  (forall source_index sentence_fields target_index pos_filter e w,
     search_reply srv = Raise e ->
     process_words_from_source_index source_index sentence_fields
       target_index pos_filter w =
     (Raise e,
      extend [(INFO, MsgExtracting source_index);
              (ERROR, MsgExtractIndexError e);
              (ERROR, MsgPipelineError e)]
        [CallSearch source_index sentence_fields] w)) /\
  (forall sentence pos_filter e w,
     forallb isspace_cp sentence = false ->
     pos_reply sentence = Raise e ->
     extract_words_from_sentence sentence pos_filter w =
     (Ok (list_set (_extract_english_words sentence)),
      extend [(ERROR, MsgMorphemeError e)] [] w)) /\
  (forall source_index sentence_fields target_index pos_filter scroll_id
          hits w,
     search_reply srv = Ok (scroll_id, hits) ->
     returned (process_words_from_source_index source_index sentence_fields
                 target_index pos_filter) w =
     write_outcome
       (corpus_records pos_filter (corpus_sentences sentence_fields hits)) /\
     w_calls (world_after
                (process_words_from_source_index source_index
                   sentence_fields target_index pos_filter) w) =
     w_calls w ++
     index_calls source_index sentence_fields scroll_id hits ++
     write_calls target_index
       (corpus_records pos_filter (corpus_sentences sentence_fields hits))).
Proof.
  split; [|split].
  - intros. by apply process_words_raise.
  - intros sentence pos_filter e w Hb Hpos.
    rewrite extract_words_from_sentence_run.
    unfold sentence_words, sentence_log, korean_words.
    by rewrite blank_spec, Hb, Hpos, app_nil_r.
  - intros source_index sentence_fields target_index pos_filter scroll_id
      hits w Hsearch.
    unfold returned, world_after.
    by rewrite (process_words_run _ _ _ _ _ _ _ Hsearch).
Qed.

Lemma fetched_pages_until_error pages e rest hits :
  hits <> [] -> Forall (fun p => p <> []) pages ->
  fetched_pages (map Ok pages ++ Raise e :: rest) hits = hits :: pages.
Proof.
  intros Hhits Hpages. revert hits Hhits.
  induction Hpages as [|p pages Hp _ IH]; intros hits Hhits.
  - by destruct hits.
  - destruct hits as [|h hits]; [done|].
    cbn [map app fetched_pages]. by rewrite IH.
Qed.

Lemma scroll_log_until_error sentence_fields pages e rest hits :
  hits <> [] -> Forall (fun p => p <> []) pages ->
  scroll_log sentence_fields (map Ok pages ++ Raise e :: rest) hits =
  flat_map sentence_log
    (flat_map (page_sentences sentence_fields) (hits :: pages)) ++
  [(WARNING, MsgScrollError e)].
Proof.
  intros Hhits Hpages. revert hits Hhits.
  induction Hpages as [|p pages Hp _ IH]; intros hits Hhits.
  - destruct hits as [|h hits]; [done|].
    cbn [map app scroll_log flat_map]. by rewrite app_nil_r.
  - destruct hits as [|h hits]; [done|].
    cbn [map app scroll_log]. rewrite IH by done.
    cbn [flat_map]. rewrite !flat_map_app. same_lists.
Qed.

Lemma map_const_repeat {A B} (b : B) (l : list A) :
  map (fun _ => b) l = repeat b (length l).
Proof. induction l as [|x l IH]; [done|]. simpl. by rewrite IH. Qed.

(** C6: when a scroll call fails after some pages, a warning is logged,
    no further scroll call is made, and the extraction returns the
    dictionaries of the pages fetched so far; the pipeline goes on to the
    write step with them. *)
Theorem scroll_failure_ends_paging source_index sentence_fields target_index
    pos_filter scroll_id hits pages e rest w :
  search_reply srv = Ok (scroll_id, hits) ->
  scroll_replies srv = map Ok pages ++ Raise e :: rest ->
  hits <> [] ->
  Forall (fun p => p <> []) pages ->
  let sentences :=
    flat_map (page_sentences sentence_fields) (hits :: pages) in
  let words := corpus_records pos_filter sentences in
  let fetch_calls :=
    [CallSearch source_index sentence_fields] ++
    repeat (CallScroll scroll_id) (S (length pages)) ++
    [CallClearScroll scroll_id] in
  let run := process_words_from_source_index source_index sentence_fields
               target_index pos_filter in
  extract_words_from_index source_index sentence_fields pos_filter w =
  (Ok words,
   extend (flat_map sentence_log sentences ++
           [(WARNING, MsgScrollError e);
            (INFO, MsgExtractSummary (len sentences) (len words))])
     fetch_calls w) /\
  returned run w = write_outcome words /\
  w_calls (world_after run w) =
  w_calls w ++ fetch_calls ++ write_calls target_index words.
Proof.
  intros Hsearch Hscroll Hhits Hpages sentences words fetch_calls run.
  assert (corpus_sentences sentence_fields hits = sentences) as Hs.
  { unfold corpus_sentences. rewrite Hscroll.
    by rewrite fetched_pages_until_error. }
  assert (index_calls source_index sentence_fields scroll_id hits =
          fetch_calls) as Hc.
  { unfold index_calls, fetch_calls. rewrite Hscroll.
    rewrite fetched_pages_until_error by done.
    by rewrite map_const_repeat. }
  split; [|split].
  - rewrite (extract_words_from_index_run _ _ _ _ _ _ Hsearch).
    rewrite Hs, Hc. fold words. f_equal. apply extend_eq; [|done].
    unfold index_log. rewrite Hs. fold words. rewrite Hscroll.
    rewrite scroll_log_until_error by done. fold sentences. same_lists.
  - unfold returned, run.
    rewrite (process_words_run _ _ _ _ _ _ _ Hsearch). cbn [fst].
    by rewrite Hs.
  - unfold world_after, run.
    rewrite (process_words_run _ _ _ _ _ _ _ Hsearch). cbn [snd].
    unfold extend. cbn [w_calls]. by rewrite Hs, Hc.
Qed.

(** ** The write step *)

Lemma index_calls_no_bulk source_index sentence_fields scroll_id hits :
  List.filter is_bulk_call
    (index_calls source_index sentence_fields scroll_id hits) = [].
Proof.
  unfold index_calls. cbn [app List.filter is_bulk_call].
  rewrite List.filter_app. cbn [List.filter is_bulk_call].
  rewrite app_nil_r.
  induction (fetched_pages (scroll_replies srv) hits) as [|p l IH];
    [done|]. done.
Qed.

(** C8: without words the write step is skipped: [index_words_to_auto_search]
    on an empty list only logs a warning; when the extraction step returns
    no dictionary, the pipeline returns normally, makes no bulk call and
    ends by logging that there is nothing to process; this is what happens
    on an empty source collection. *)
Theorem empty_word_set_skips_write :
  (forall target_index w,
     index_words_to_auto_search [] target_index w =
     (Ok tt, extend [(WARNING, MsgNoWordsToIndex)] [] w)) /\
  (forall source_index sentence_fields target_index pos_filter w,
     returned (extract_words_from_index source_index sentence_fields
                 pos_filter) w = Ok [] ->
     returned (process_words_from_source_index source_index sentence_fields
                 target_index pos_filter) w = Ok tt /\
     List.filter is_bulk_call
       (w_calls (world_after
                   (process_words_from_source_index source_index
                      sentence_fields target_index pos_filter) w)) =
     List.filter is_bulk_call (w_calls w) /\
     last (w_log (world_after
                    (process_words_from_source_index source_index
                       sentence_fields target_index pos_filter) w)) =
     Some (WARNING, MsgNothingToProcess)) /\
  (forall source_index sentence_fields target_index pos_filter scroll_id w,
     search_reply srv = Ok (scroll_id, []) ->
     process_words_from_source_index source_index sentence_fields
       target_index pos_filter w =
     (Ok tt,
      extend [(INFO, MsgExtracting source_index);
              (INFO, MsgExtractSummary 0 0);
              (WARNING, MsgNothingToProcess)]
        [CallSearch source_index sentence_fields;
         CallClearScroll scroll_id] w)).
Proof.
  split; [|split].
  - intros. apply index_words_to_auto_search_empty.
  - intros source_index sentence_fields target_index pos_filter w.
    unfold returned, world_after.
    destruct (search_reply srv) as [[scroll_id hits]|e] eqn:E.
    + rewrite (extract_words_from_index_run _ _ _ _ _ _ E).
      rewrite (process_words_run _ _ _ _ _ _ _ E). cbn [fst snd].
      intros [= Hnone]. rewrite Hnone.
      cbn [write_outcome write_log write_calls]. split; [done|].
      unfold extend. cbn [w_log w_calls]. split.
      * rewrite !List.filter_app, index_calls_no_bulk. by rewrite !app_nil_r.
      * rewrite !app_assoc. apply last_snoc.
    + by rewrite (extract_words_from_index_raise _ _ _ _ _ E).
  - intros source_index sentence_fields target_index pos_filter scroll_id w
      Hsearch.
    rewrite (process_words_run _ _ _ _ _ _ _ Hsearch).
    unfold corpus_sentences, index_log, index_calls, corpus_sentences.
    destruct (scroll_replies srv); reflexivity.
Qed.

(** * Further properties *)

(** ** Choseong extractor *)

Lemma choseong_of_char_not_hangul c :
  hangul_syllable (choseong_of_char_spec c) = false.
Proof.
  destruct (hangul_syllable c) eqn:E.
  - by apply choseong_list_not_hangul, choseong_symbol_in_list.
  - by rewrite choseong_of_char_other.
Qed.

Lemma letter_not_hangul c :
  ascii_letter c = true -> hangul_syllable c = false.
Proof.
  unfold ascii_letter, ascii_lower, ascii_upper, hangul_syllable, GA, HIH.
  lia.
Qed.

Lemma extract_choseong_spec_no_syllable text :
  existsb hangul_syllable (extract_choseong_spec text) = false.
Proof.
  destruct text as [|c text]; [done|]. unfold extract_choseong_spec.
  destruct (forallb ascii_letter (c :: text)) eqn:E.
  - apply not_true_is_false. intros (x & Hx & Hh)%existsb_exists.
    apply in_map_iff in Hx as (y & <- & Hy).
    rewrite forallb_forall in E. specialize (E y Hy).
    rewrite <- ascii_to_lower_letter in E.
    apply letter_not_hangul in E. congruence.
  - apply not_true_is_false. intros (x & Hx & Hh)%existsb_exists.
    apply in_map_iff in Hx as (y & <- & Hy).
    by rewrite choseong_of_char_not_hangul in Hh.
Qed.

Lemma map_fixed {A} (f : A -> A) (l : list A) :
  map f l = l <-> (forall x, In x l -> f x = x).
Proof.
  induction l as [|y l IH]; simpl.
  - split; [intros _ x []|done].
  - split.
    + intros [= Hy Hl] x [<-|Hx]; [done|]. by apply IH.
    + intros H. rewrite (H y) by by left. f_equal. apply IH.
      intros x Hx. apply H. by right.
Qed.

(** X1: the result of [extract_choseong] has as many characters as its
    argument. *)
Theorem extract_choseong_keeps_length text :
  exists out, extract_choseong text = Ok out /\ length out = length text.
Proof.
  exists (extract_choseong_spec text).
  split; [apply extract_choseong_refines|].
  destruct text as [|c text]; [done|]. unfold extract_choseong_spec.
  destruct (forallb ascii_letter (c :: text)); by rewrite length_map.
Qed.

(** X2: the result of [extract_choseong] contains no Korean syllable, so
    [is_korean_word] rejects it, and it differs from the argument whenever
    the argument contains a syllable. *)
Theorem extract_choseong_leaves_no_syllable text :
  exists out,
    extract_choseong text = Ok out /\
    is_korean_word out = false /\
    (is_korean_word text = true -> out <> text).
Proof.
  exists (extract_choseong_spec text).
  split; [apply extract_choseong_refines|].
  pose proof (extract_choseong_spec_no_syllable text) as Hno.
  split.
  - unfold is_korean_word. rewrite Hno. by destruct (py_not _).
  - unfold is_korean_word. destruct text as [|c text]; [done|].
    cbn [py_not]. intros Hk Heq. rewrite Heq in Hno. congruence.
Qed.

(** X3: [extract_choseong] returns its argument unchanged exactly when the
    argument contains no Korean syllable and is not a word of ASCII letters
    with an upper-case letter among them. *)
Theorem extract_choseong_fixed_points text :
  extract_choseong text = Ok text <->
  existsb hangul_syllable text = false /\
  (forallb ascii_letter text = true -> forallb ascii_lower text = true).
Proof.
  rewrite extract_choseong_refines.
  destruct text as [|c text]; [done|]. unfold extract_choseong_spec.
  destruct (forallb ascii_letter (c :: text)) eqn:E.
  - split.
    + intros [= Hfix]. split.
      * apply not_true_is_false. intros (x & Hx & Hh)%existsb_exists.
        rewrite forallb_forall in E.
        apply E, letter_not_hangul in Hx. congruence.
      * intros _. apply forallb_forall. intros x Hx.
        change (ascii_to_lower c :: map ascii_to_lower text)
          with (map ascii_to_lower (c :: text)) in Hfix.
        assert (map ascii_to_lower (c :: text) = c :: text) as Hmap
          by (simpl; congruence).
        rewrite map_fixed in Hmap. specialize (Hmap x Hx).
        rewrite forallb_forall in E. specialize (E x Hx).
        unfold ascii_to_lower in Hmap. unfold ascii_letter in E.
        destruct (ascii_upper x); [lia|]. by rewrite orb_false_r in E.
    + intros [_ Hlow]. specialize (Hlow eq_refl). f_equal.
      apply map_fixed. intros x Hx.
      rewrite forallb_forall in Hlow. specialize (Hlow x Hx).
      unfold ascii_to_lower. replace (ascii_upper x) with false; [done|].
      unfold ascii_lower, ascii_upper in *. lia.
  - split.
    + intros [= Hfix]. split; [|done].
      apply not_true_is_false. intros (x & Hx & Hh)%existsb_exists.
      assert (map choseong_of_char_spec (c :: text) = c :: text) as Hmap
        by (simpl; congruence).
      rewrite map_fixed in Hmap. specialize (Hmap x Hx).
      pose proof (choseong_of_char_not_hangul x) as Hn.
      rewrite Hmap in Hn. congruence.
    + intros [Hno _]. f_equal. apply map_fixed. intros x Hx.
      apply choseong_of_char_other.
      destruct (hangul_syllable x) eqn:Hh; [|done].
      assert (existsb hangul_syllable (c :: text) = true)
        by (apply existsb_exists; eauto).
      congruence.
Qed.

Lemma letter_hangul_false c :
  hangul_syllable c = true -> ascii_letter c = false.
Proof.
  unfold ascii_letter, ascii_lower, ascii_upper, hangul_syllable, GA, HIH.
  lia.
Qed.

Lemma extract_choseong_syllable c :
  hangul_syllable c = true ->
  extract_choseong [c] =
  Ok [nth (Z.to_nat ((c - 44032) / 588)) choseong_list 0].
Proof.
  intros H. rewrite extract_choseong_refines. unfold extract_choseong_spec.
  cbn [forallb map]. rewrite andb_true_r.
  rewrite (letter_hangul_false c H).
  unfold choseong_of_char_spec.
  change ((0xAC00 <=? c) && (c <=? 0xD7A3)) with (hangul_syllable c).
  rewrite H. do 2 f_equal. apply nth_indep.
  pose proof (choseong_code_range c H). simpl. lia.
Qed.

(** X4: two syllables get the same symbol exactly when they lie in the
    same block of 588 code points counted from U+AC00. *)
Theorem same_choseong_same_block c c' :
  hangul_syllable c = true -> hangul_syllable c' = true ->
  extract_choseong [c] = extract_choseong [c'] <->
  (c - 44032) / 588 = (c' - 44032) / 588.
Proof.
  intros H H'. rewrite !extract_choseong_syllable by done.
  pose proof (choseong_code_range c H) as Hr.
  pose proof (choseong_code_range c' H') as Hr'.
  split; [|by intros ->].
  intros [= Hnth].
  destruct choseong_list_compatibility_jamo as (_ & Hlen & Hnd).
  apply NoDup_ListNoDup in Hnd.
  rewrite (List.NoDup_nth choseong_list 0) in Hnd.
  apply Hnd in Hnth; lia.
Qed.

Lemma CHOSEONG_MAP_entries k v :
  CHOSEONG_MAP !! k = Some v <->
  exists i, (0 <= i < 19) /\
            k = [nth (Z.to_nat i) choseong_list 0] /\
            v = [44032 + 588 * i].
Proof.
  unfold CHOSEONG_MAP. rewrite <- elem_of_list_to_map.
  - rewrite !elem_of_cons, elem_of_nil. split.
    + intros H.
      repeat (destruct H as [[= -> ->]|H];
              [match goal with
               | |- context [ [?n] = [44032 + 588 * _] ] =>
                   exists ((n - 44032) / 588)
               end; by vm_compute|]).
      done.
    + intros (i & Hi & -> & ->).
      assert (i = 0 \/ i = 1 \/ i = 2 \/ i = 3 \/ i = 4 \/ i = 5 \/ i = 6 \/
              i = 7 \/ i = 8 \/ i = 9 \/ i = 10 \/ i = 11 \/ i = 12 \/
              i = 13 \/ i = 14 \/ i = 15 \/ i = 16 \/ i = 17 \/ i = 18)
        as Hcase by lia.
      repeat (destruct Hcase as [->|Hcase]; [simpl; tauto|]).
      subst i. simpl. tauto.
  - apply (bool_decide_unpack _). by vm_compute.
Qed.

(** X5: [CHOSEONG_MAP] is a right inverse of [extract_choseong]: the
    syllable stored for a consonant has that consonant as its choseong; and
    its keys are the 19 symbols of [choseong_list]. *)
Theorem CHOSEONG_MAP_round_trip :
  (forall k v, CHOSEONG_MAP !! k = Some v -> extract_choseong v = Ok k) /\
  (forall x, In x choseong_list <-> is_Some (CHOSEONG_MAP !! [x])).
Proof.
  split.
  - intros k v (i & Hi & -> & ->)%CHOSEONG_MAP_entries.
    rewrite extract_choseong_syllable
      by (unfold hangul_syllable, GA, HIH; lia).
    do 3 f_equal. replace (44032 + 588 * i - 44032) with (i * 588) by lia.
    by rewrite Z.div_mul.
  - intros x. split.
    + intros (n & Hlt & Hn)%(In_nth _ _ 0).
      exists [44032 + 588 * Z.of_nat n]. apply CHOSEONG_MAP_entries.
      exists (Z.of_nat n). change (length choseong_list) with 19%nat in Hlt.
      split; [lia|]. by rewrite Nat2Z.id, Hn.
    + intros [v (i & Hi & Hk & _)%CHOSEONG_MAP_entries].
      assert (x = nth (Z.to_nat i) choseong_list 0) as -> by congruence.
      apply nth_In. change (length choseong_list) with 19%nat. lia.
Qed.

(** ** English word extractor *)

Lemma letter_word_char c : ascii_letter c = true -> is_word_char c = true.
Proof.
  intros H. unfold is_word_char, isalpha_cp.
  by rewrite (letter_is_ascii c H), H.
Qed.

Lemma take_drop_while {A} (p : A -> bool) l :
  take_while p l ++ drop_while p l = l.
Proof.
  induction l as [|x l IH]; [done|]. simpl.
  destruct (p x); simpl; by rewrite ?IH.
Qed.

Lemma head_drop_while {A} (p : A -> bool) l x :
  head (drop_while p l) = Some x -> p x = false.
Proof.
  induction l as [|y l IH]; [done|]. simpl.
  destruct (p y) eqn:E; [done|]. simpl. congruence.
Qed.

Lemma letters_lookup_word (run : list Z) k :
  Forall (fun c => ascii_letter c = true) run ->
  (k < length run)%nat -> opt_word_char (run !! k) = true.
Proof.
  intros Hrun Hk. destruct (lookup_lt_is_Some_2 run k Hk) as [x Hx].
  rewrite Hx. simpl. apply letter_word_char.
  rewrite Forall_forall in Hrun. apply Hrun.
  by apply list_elem_of_lookup_2 in Hx.
Qed.

Lemma last_take_lookup {A} (l : list A) n :
  (S n <= length l)%nat -> last (take (S n) l) = l !! n.
Proof.
  intros Hn. rewrite last_lookup, length_take.
  replace (Init.Nat.pred (S n `min` length l)) with n by lia.
  apply lookup_take_lt. lia.
Qed.

Lemma head_drop_app_lookup {A} (l rest : list A) n :
  (n < length l)%nat -> head (drop n l ++ rest) = l !! n.
Proof.
  intros Hn. rewrite head_lookup, lookup_app_l.
  - rewrite lookup_drop. by rewrite Nat.add_0_r.
  - rewrite length_drop. lia.
Qed.

(** Giving letters back never helps: inside the run both neighbours are
    letters, so there is no boundary. *)
Lemma letters_then_boundary_inside run rest n :
  Forall (fun c => ascii_letter c = true) run ->
  (n < length run)%nat -> letters_then_boundary run rest n = None.
Proof.
  intros Hrun. induction n as [|n IH]; [done|]. intros Hn.
  cbn [letters_then_boundary].
  rewrite last_take_lookup by lia. rewrite head_drop_app_lookup by lia.
  unfold word_boundary.
  rewrite !letters_lookup_word by (done || lia).
  cbn [xorb]. rewrite andb_false_r. apply IH. lia.
Qed.

Lemma letters_then_boundary_whole run rest :
  Forall (fun c => ascii_letter c = true) run ->
  letters_then_boundary run rest (length run) =
  if (2 <=? length run)%nat && negb (opt_word_char (head rest))
  then Some run else None.
Proof.
  intros Hrun. destruct (length run) as [|n] eqn:Hlen; [done|].
  cbn [letters_then_boundary].
  rewrite last_take_lookup by lia.
  rewrite <- Hlen, firstn_all, skipn_all. cbn [app].
  unfold word_boundary.
  rewrite letters_lookup_word by (done || lia). cbn [xorb].
  rewrite Hlen.
  destruct (2 <=? S n)%nat, (opt_word_char (head rest)); cbn [andb negb];
    try done; apply letters_then_boundary_inside; done || lia.
Qed.

Lemma english_pattern_match_at_eq prev s :
  english_pattern_match_at prev s =
  if negb (opt_word_char prev) &&
     (2 <=? length (take_while ascii_letter s))%nat &&
     negb (opt_word_char (head (drop_while ascii_letter s)))
  then Some (take_while ascii_letter s) else None.
Proof.
  unfold english_pattern_match_at.
  rewrite letters_then_boundary_whole by apply take_while_Forall.
  destruct s as [|c s].
  { simpl. unfold word_boundary. simpl.
    by destruct (opt_word_char prev). }
  cbn [head take_while drop_while]. destruct (ascii_letter c) eqn:E.
  - unfold word_boundary. cbn [opt_word_char].
    rewrite (letter_word_char c E).
    destruct (opt_word_char prev); [done|]. by rewrite xorb_false_l.
  - cbn [length]. rewrite andb_false_r. cbn [andb].
    by destruct (word_boundary prev (Some c)).
Qed.

(** X6: at a position of the sentence the pattern [\b[a-zA-Z]{2,}\b]
    matches exactly when the character before is not a word character, at
    least two ASCII letters follow, and the character after the run of
    letters is not a word character; the match is then the whole run:
    backtracking never produces a shorter one. *)
Theorem english_pattern_matches_whole_runs prev s :
  english_pattern_match_at prev s =
  if negb (opt_word_char prev) &&
     (2 <=? length (take_while ascii_letter s))%nat &&
     negb (opt_word_char (head (drop_while ascii_letter s)))
  then Some (take_while ascii_letter s) else None.
Proof. apply english_pattern_match_at_eq. Qed.

Lemma english_pattern_scan_delimited p s inside m :
  In m (english_pattern_scan (last p) s inside) ->
  exists pre post,
    s = pre ++ m ++ post /\
    opt_word_char (last (p ++ pre)) = false /\
    opt_word_char (head post) = false.
Proof.
  revert p inside. induction s as [|c s IH]; intros p inside; [done|].
  assert (forall k, In m (english_pattern_scan (Some c) s k) ->
            exists pre post,
              c :: s = pre ++ m ++ post /\
              opt_word_char (last (p ++ pre)) = false /\
              opt_word_char (head post) = false) as Hrest.
  { intros k Hin. replace (Some c) with (last (p ++ [c])) in Hin
      by apply last_snoc.
    apply IH in Hin as (pre & post & -> & Hb & Ha).
    exists (c :: pre), post. split; [done|]. split; [|done].
    by rewrite <- app_assoc in Hb. }
  cbn [english_pattern_scan]. destruct inside as [|k]; [|apply Hrest].
  rewrite english_pattern_match_at_eq.
  destruct (negb (opt_word_char (last p)) &&
            (2 <=? length (take_while ascii_letter (c :: s)))%nat &&
            negb (opt_word_char
                    (head (drop_while ascii_letter (c :: s))))) eqn:E;
    [|apply Hrest].
  intros [<-|Hin]; [|by apply Hrest in Hin].
  exists [], (drop_while ascii_letter (c :: s)).
  rewrite app_nil_r. cbn [app].
  apply andb_true_iff in E as [[Hb _]%andb_true_iff Ha].
  split; [by rewrite take_drop_while|].
  split; by apply negb_true_iff.
Qed.

(** X7: every word returned by [_extract_english_words] is the lower-cased
    form of a run of ASCII letters of the sentence, two to fifty letters
    long, that stands between two characters that are not word characters
    (or at an end of the sentence). *)
Theorem english_words_are_delimited_runs sentence w :
  In w (_extract_english_words sentence) ->
  exists pre m post,
    sentence = pre ++ m ++ post /\
    w = map ascii_to_lower m /\
    forallb ascii_letter m = true /\
    2 <= len m <= 50 /\
    opt_word_char (last pre) = false /\
    opt_word_char (head post) = false.
Proof.
  unfold _extract_english_words. rewrite english_words_loop_spec.
  cbn [app]. intros (m & <- & Hm)%in_map_iff.
  apply filter_In in Hm as [Hm Hv].
  pose proof (english_pattern_scan_inv None sentence 0) as Hall.
  rewrite Forall_forall in Hall.
  pose proof (Hall m (proj2 (list_elem_of_In _ _) Hm)) as [_ Hlet].
  assert (forallb ascii_letter m = true) as Hb.
  { apply forallb_forall. intros x Hx.
    rewrite Forall_forall in Hlet. by apply Hlet, list_elem_of_In. }
  apply is_valid_english_word_inv in Hv as [Hlen _].
  apply (english_pattern_scan_delimited [] sentence 0) in Hm
    as (pre & post & -> & Hbefore & Hafter).
  exists pre, m, post. split; [done|].
  split; [by apply str_lower_letters|]. done.
Qed.

(** X8: on the matches of the pattern the validity check only tests the
    length: a run of more than 50 letters is dropped, every other match is
    kept. *)
Theorem english_validity_is_a_length_check sentence :
  (forall m, In m (english_pattern_findall sentence) ->
             is_valid_english_word m = (len m <=? 50)) /\
  _extract_english_words sentence =
  map str_lower (List.filter (fun m => len m <=? 50)
                   (english_pattern_findall sentence)).
Proof.
  assert (forall m, In m (english_pattern_findall sentence) ->
                    is_valid_english_word m = (len m <=? 50)) as Hcheck.
  { intros m Hm.
    pose proof (english_pattern_scan_inv None sentence 0) as Hall.
    rewrite Forall_forall in Hall.
    apply list_elem_of_In, Hall in Hm as [Hlen Hlet].
    unfold is_valid_english_word, str_isalpha.
    destruct m as [|c m]; [simpl in Hlen; lia|].
    cbn [py_not orb negb andb].
    replace (len (c :: m) <? 2) with false by (unfold len; lia).
    replace (forallb isalpha_cp (c :: m)) with true.
    - cbn [negb]. destruct (len (c :: m) >? 50) eqn:E; lia.
    - symmetry. apply forallb_forall. intros x Hx.
      rewrite Forall_forall in Hlet.
      apply list_elem_of_In, Hlet in Hx. unfold isalpha_cp.
      by rewrite (letter_is_ascii x Hx). }
  split; [exact Hcheck|].
  unfold _extract_english_words. rewrite english_words_loop_spec.
  cbn [app]. f_equal. apply List.filter_ext_in. exact Hcheck.
Qed.

(** X9: an English word returned by [_extract_english_words] is never a
    valid Korean word, and its choseong is the word itself. *)
Theorem english_words_are_their_own_choseong sentence w :
  In w (_extract_english_words sentence) ->
  is_valid_korean_word w = false /\ extract_choseong w = Ok w.
Proof.
  intros Hin. apply _extract_english_words_inv in Hin as [Hlen Hlow].
  assert (forallb ascii_letter w = true) as Hlet.
  { apply forallb_forall. intros x Hx.
    rewrite forallb_forall in Hlow. specialize (Hlow x Hx).
    unfold ascii_letter. by rewrite Hlow. }
  split.
  - rewrite is_valid_korean_word_eq.
    replace (existsb hangul_syllable w) with false;
      [apply andb_false_r|].
    symmetry. apply not_true_is_false.
    intros (x & Hx & Hh)%existsb_exists.
    rewrite forallb_forall in Hlet.
    apply Hlet, letter_not_hangul in Hx. congruence.
  - rewrite extract_choseong_refines. unfold extract_choseong_spec.
    destruct w as [|c w]; [done|]. rewrite Hlet. f_equal.
    apply map_fixed. intros x Hx.
    rewrite forallb_forall in Hlow. specialize (Hlow x Hx).
    unfold ascii_to_lower. replace (ascii_upper x) with false; [done|].
    unfold ascii_lower, ascii_upper in *. lia.
Qed.

(** ** Morphological word extractor *)

Lemma korean_words_loop_tokens morphs pos_filter :
  korean_words_loop morphs pos_filter [] = accepted_tokens pos_filter morphs.
Proof. by rewrite korean_words_loop_spec. Qed.

(** X10: [_extract_korean_words] never raises.  When the analyzer answers,
    it returns, in the analyzer's order, the tokens whose tag the filter
    accepts and that are valid Korean words, and logs nothing; when the
    analyzer call fails it returns the empty list and logs one error. *)
Theorem extract_korean_words_never_raises sentence pos_filter w :
  match pos_reply sentence with
  | Ok morphs =>
      _extract_korean_words sentence pos_filter w =
      (Ok (accepted_tokens pos_filter morphs), w)
  | Raise e =>
      _extract_korean_words sentence pos_filter w =
      (Ok [], extend [(ERROR, MsgMorphemeError e)] [] w)
  end.
Proof.
  rewrite _extract_korean_words_run. unfold korean_words.
  destruct (pos_reply sentence) as [morphs|e]; [|done].
  by rewrite korean_words_loop_tokens, extend_nil.
Qed.

Lemma accepted_tokens_sublists tags morphs :
  accepted_tokens (Some tags) morphs `sublist_of`
    accepted_tokens None morphs /\
  accepted_tokens None morphs `sublist_of` map fst morphs.
Proof.
  unfold accepted_tokens.
  induction morphs as [|[x t] morphs [IH1 IH2]]; [by split; constructor|].
  cbn [List.filter map fst snd pos_accepted andb].
  destruct (is_valid_korean_word x); cbn [andb].
  - destruct (bool_decide (t ∈ tags)); cbn [map fst];
      split; by constructor.
  - rewrite andb_false_r. split; [done|by constructor].
Qed.

(** X11: the tag filter of the Korean word loop.  A filter that lists
    every tag of the analyzer's answer changes nothing with respect to no
    filter; an empty list of tags, unlike no filter, rejects every token;
    with any filter the result is a sublist of the result without filter,
    which is a sublist of the analyzer's tokens; and every word returned is
    a valid Korean word. *)
Theorem korean_words_loop_filter morphs :
  korean_words_loop morphs (Some []) [] = [] /\
  (forall tags,
     (forall x t, In (x, t) morphs -> In t tags) ->
     korean_words_loop morphs (Some tags) [] =
     korean_words_loop morphs None []) /\
  (forall tags,
     korean_words_loop morphs (Some tags) [] `sublist_of`
       korean_words_loop morphs None [] /\
     korean_words_loop morphs None [] `sublist_of` map fst morphs) /\
  (forall pos_filter x,
     In x (korean_words_loop morphs pos_filter []) ->
     is_valid_korean_word x = true).
Proof.
  rewrite !korean_words_loop_tokens. split; [|split; [|split]].
  - unfold accepted_tokens. induction morphs as [|[x t] morphs IH]; [done|].
    cbn [List.filter fst snd pos_accepted].
    rewrite bool_decide_eq_false_2 by apply not_elem_of_nil. done.
  - intros tags Hall. rewrite !korean_words_loop_tokens.
    unfold accepted_tokens. f_equal. apply List.filter_ext_in.
    intros [x t] Hin. cbn [fst snd pos_accepted].
    rewrite bool_decide_eq_true_2; [done|].
    apply list_elem_of_In. by apply (Hall x).
  - intros tags. rewrite !korean_words_loop_tokens.
    apply accepted_tokens_sublists.
  - intros pos_filter x. rewrite korean_words_loop_tokens.
    unfold accepted_tokens. intros ([y t] & <- & Hy)%in_map_iff.
    apply filter_In in Hy as [_ Hy].
    by apply andb_true_iff in Hy as [_ Hy].
Qed.

Lemma length_list_set (l : list (list Z)) :
  (length (list_set l) <= length l)%nat.
Proof.
  unfold list_set. apply submseteq_length, NoDup_submseteq.
  - apply NoDup_elements.
  - intros x. rewrite elem_of_elements. apply elem_of_list_to_set.
Qed.

Lemma length_english_words sentence :
  (length (_extract_english_words sentence) <=
   length (english_pattern_findall sentence))%nat.
Proof.
  unfold _extract_english_words. rewrite english_words_loop_spec.
  cbn [app]. rewrite length_map. apply List.filter_length_le.
Qed.

(** X12: [extract_words_from_sentence] makes no client call, logs at most
    one line, and returns nothing but words of the sentence: each word of
    its result is an English word of the sentence or a valid token of the
    analyzer's answer whose tag the filter accepts; and there are at most
    as many of them as pattern matches and analyzer tokens together. *)
Theorem extract_words_from_sentence_sources sentence pos_filter w :
  exists ws lines,
    extract_words_from_sentence sentence pos_filter w =
    (Ok ws, extend lines [] w) /\
    (length lines <= 1)%nat /\
    (forall x, In x ws ->
       In x (_extract_english_words sentence) \/
       exists morphs t,
         pos_reply sentence = Ok morphs /\ In (x, t) morphs /\
         pos_accepted pos_filter t = true /\
         is_valid_korean_word x = true) /\
    (length ws <=
     length (english_pattern_findall sentence) +
     match pos_reply sentence with
     | Ok morphs => length morphs
     | Raise _ => 0
     end)%nat.
Proof.
  exists (sentence_words sentence pos_filter), (sentence_log sentence).
  split; [apply extract_words_from_sentence_run|].
  unfold sentence_words, sentence_log, korean_words.
  destruct (blank sentence) eqn:Hb.
  { repeat split; simpl; [lia|done|lia]. }
  split; [by destruct (pos_reply sentence); simpl; lia|]. split.
  - intros x Hx. unfold list_set in Hx.
    apply list_elem_of_In, elem_of_elements, elem_of_list_to_set,
      elem_of_app in Hx as [Hx|Hx];
      [left; by apply list_elem_of_In|right].
    destruct (pos_reply sentence) as [morphs|e];
      [|by apply elem_of_nil in Hx].
    rewrite korean_words_loop_tokens in Hx.
    apply list_elem_of_In, in_map_iff in Hx as ([y t] & <- & Hy).
    apply filter_In in Hy as [Hin [Hacc Hval]%andb_true_iff].
    by exists morphs, t.
  - etrans; [apply length_list_set|]. rewrite length_app.
    pose proof (length_english_words sentence).
    destruct (pos_reply sentence) as [morphs|e]; simpl; [|lia].
    rewrite korean_words_loop_tokens. unfold accepted_tokens.
    rewrite length_map.
    pose proof (List.filter_length_le
                  (fun m => pos_accepted pos_filter (snd m) &&
                            is_valid_korean_word (fst m)) morphs).
    lia.
Qed.

(** ** Paging and extraction from the index *)



Lemma last_index_log sentence_fields pos_filter hits lines :
  last (lines ++ index_log sentence_fields pos_filter hits) =
  Some (INFO, MsgExtractSummary
                (len (corpus_sentences sentence_fields hits))
                (len (corpus_records pos_filter
                        (corpus_sentences sentence_fields hits)))).
Proof. unfold index_log. rewrite app_assoc. apply last_snoc. Qed.

Lemma length_corpus_sentences sentence_fields pages :
  length (flat_map (page_sentences sentence_fields) pages) =
  length (List.filter (fun v => negb (py_not v))
            (omap id (flat_map (fun source =>
                                  map (fun field => source !! field)
                                    sentence_fields)
                        (concat pages)))).
Proof.
  induction pages as [|hits pages IH]; [done|].
  cbn [flat_map concat]. rewrite flat_map_app, omap_app, List.filter_app.
  rewrite !length_app, IH. f_equal. clear IH.
  unfold page_sentences. induction hits as [|source hits IH]; [done|].
  cbn [flat_map]. rewrite omap_app, List.filter_app, !length_app, IH.
  f_equal. clear IH. unfold source_sentences.
  induction sentence_fields as [|f fs IH]; [done|].
  cbn [flat_map map omap]. rewrite length_app, IH. unfold field_sentences.
  destruct (source !! f) as [[|c v]|]; done.
Qed.

(** X14: when [extract_words_from_index] returns, its last log line is
    the summary; the number of words it reports is the length of the list
    returned, and the number of sentences is the number of non-empty values
    that the documents of the pages processed have for the configured
    fields. *)
Theorem extract_words_from_index_summary source_index sentence_fields
    pos_filter scroll_id hits w :
  search_reply srv = Ok (scroll_id, hits) ->
  exists words,
    returned (extract_words_from_index source_index sentence_fields
                pos_filter) w = Ok words /\
    last (w_log (world_after (extract_words_from_index source_index
                                sentence_fields pos_filter) w)) =
    Some (INFO,
          MsgExtractSummary
            (Z.of_nat
               (length
                  (List.filter (fun v => negb (py_not v))
                     (omap id
                        (flat_map (fun source =>
                                     map (fun field => source !! field)
                                       sentence_fields)
                           (concat (fetched_pages (scroll_replies srv)
                                      hits)))))))
            (len words)).
Proof.
  intros Hsearch. unfold returned, world_after.
  rewrite (extract_words_from_index_run _ _ _ _ _ _ Hsearch).
  eexists. split; [reflexivity|]. cbn [snd]. unfold extend. cbn [w_log].
  rewrite last_index_log. do 3 f_equal. unfold len, corpus_sentences.
  f_equal. apply length_corpus_sentences.
Qed.

Lemma source_sentences_nil (sentence_fields : list (list Z))
    (source : gmap (list Z) (list Z)) :
  (forall f, In f sentence_fields ->
             source !! f = None \/ source !! f = Some []) ->
  source_sentences sentence_fields source = [].
Proof.
  unfold source_sentences.
  induction sentence_fields as [|f fs IH]; [done|]. intros H.
  cbn [flat_map]. rewrite IH by (intros g Hg; apply H; by right).
  unfold field_sentences.
  by destruct (H f (or_introl eq_refl)) as [-> | ->].
Qed.

(** X15: documents that have none of the configured fields, or only empty
    values for them, give no word: when every document of the pages
    processed is like that, the extraction returns the empty list and the
    pipeline ends without a bulk call. *)
Theorem documents_without_sentences_give_nothing source_index
    sentence_fields target_index pos_filter scroll_id hits w :
  search_reply srv = Ok (scroll_id, hits) ->
  (forall source f,
     In source (concat (fetched_pages (scroll_replies srv) hits)) ->
     In f sentence_fields ->
     source !! f = None \/ source !! f = Some []) ->
  returned (extract_words_from_index source_index sentence_fields
              pos_filter) w = Ok [] /\
  returned (process_words_from_source_index source_index sentence_fields
              target_index pos_filter) w = Ok tt /\
  List.filter is_bulk_call
    (w_calls (world_after
                (process_words_from_source_index source_index
                   sentence_fields target_index pos_filter) w)) =
  List.filter is_bulk_call (w_calls w).
Proof.
  intros Hsearch Hdocs.
  assert (corpus_sentences sentence_fields hits = []) as Hnone.
  { unfold corpus_sentences.
    induction (fetched_pages (scroll_replies srv) hits) as [|page pages IH];
      [done|].
    cbn [flat_map]. rewrite IH.
    - rewrite app_nil_r. unfold page_sentences.
      assert (forall source, In source page ->
                source_sentences sentence_fields source = []) as Hpage.
      { intros source Hin. apply source_sentences_nil. intros f Hf.
        apply Hdocs; [|done]. cbn [concat]. apply in_or_app. by left. }
      clear -Hpage. induction page as [|source page IH]; [done|].
      cbn [flat_map]. rewrite (Hpage source) by by left.
      apply IH. intros s Hs. apply Hpage. by right.
    - intros source f Hin. apply Hdocs. cbn [concat].
      apply in_or_app. by right. }
  unfold returned, world_after.
  rewrite (extract_words_from_index_run _ _ _ _ _ _ Hsearch).
  rewrite (process_words_run _ _ _ _ _ _ _ Hsearch).
  rewrite Hnone. cbn [fst snd corpus_records flat_map write_outcome
                      write_calls].
  split; [done|]. split; [done|].
  unfold extend. cbn [w_calls].
  rewrite !List.filter_app, index_calls_no_bulk. by rewrite !app_nil_r.
Qed.

(** ** The bulk write *)

Lemma bulk_lines_lookup target_index words i rec :
  words !! i = Some rec ->
  bulk_lines target_index words !! (2 * i)%nat =
  Some (BulkIndexAction target_index (word rec)) /\
  bulk_lines target_index words !! (2 * i + 1)%nat =
  Some (BulkDoc (word rec) (word rec) (choseong rec) (source_sentence rec)).
Proof.
  revert i. induction words as [|r words IH]; intros i; [done|].
  destruct i as [|i].
  - intros [= ->]. done.
  - cbn [lookup list_lookup]. intros Hi.
    replace (2 * S i)%nat with (S (S (2 * i))) by lia.
    by apply IH.
Qed.

Lemma length_bulk_lines target_index words :
  length (bulk_lines target_index words) = (2 * length words)%nat.
Proof.
  induction words as [|r words IH]; [done|].
  unfold bulk_lines in *. cbn [flat_map app length]. rewrite IH. lia.
Qed.

(** X16: [index_words_to_auto_search] on a non-empty list makes exactly
    one bulk call; its body has two lines per word, in the order of the
    list: line 2i is the index action with the target index and the i-th
    word as [_id], line 2i+1 the document with that word as [id] and
    [word], its choseong as [initial], and its source sentence if it has
    one. *)
Theorem bulk_body_layout r words target_index w :
  exists body,
    List.filter is_bulk_call
      (w_calls (world_after
                  (index_words_to_auto_search (r :: words) target_index)
                  w)) =
    List.filter is_bulk_call (w_calls w) ++ [CallBulk body] /\
    length body = (2 * length (r :: words))%nat /\
    (forall i rec,
       (r :: words) !! i = Some rec ->
       body !! (2 * i)%nat =
       Some (BulkIndexAction target_index (word rec)) /\
       body !! (2 * i + 1)%nat =
       Some (BulkDoc (word rec) (word rec) (choseong rec)
               (source_sentence rec))).
Proof.
  exists (bulk_lines target_index (r :: words)).
  unfold world_after. rewrite index_words_to_auto_search_run.
  cbn [snd]. unfold extend. cbn [w_calls].
  rewrite List.filter_app. split; [done|].
  split; [apply length_bulk_lines|].
  intros i rec. apply bulk_lines_lookup.
Qed.

Lemma item_error_lines its :
  flat_map (fun item : option Z =>
              match item with
              | Some err => [(ERROR, MsgBulkItemError err)]
              | None => []
              end) its =
  map (fun err => (ERROR, MsgBulkItemError err)) (omap id its).
Proof.
  induction its as [|[err|] its IH]; simpl; by rewrite ?IH.
Qed.

(** X17: failures of single items do not make [index_words_to_auto_search]
    raise: when the bulk call answers, the function returns normally; if
    the answer flags errors it logs one error line and then one per failed
    item, in their order, otherwise it logs the number of words.  When the
    bulk call itself fails, the error is logged and raised again. *)
Theorem bulk_item_errors_are_only_logged r words target_index w :
  match bulk_reply srv with
  | Ok response =>
      returned (index_words_to_auto_search (r :: words) target_index) w =
      Ok tt /\
      w_log (world_after
               (index_words_to_auto_search (r :: words) target_index) w) =
      w_log w ++
      (if errors response
       then (ERROR, MsgBulkSomeErrors) ::
            map (fun err => (ERROR, MsgBulkItemError err))
              (omap id (items response))
       else [(INFO, MsgBulkSuccess (len (r :: words)))])
  | Raise e =>
      returned (index_words_to_auto_search (r :: words) target_index) w =
      Raise e /\
      w_log (world_after
               (index_words_to_auto_search (r :: words) target_index) w) =
      w_log w ++ [(ERROR, MsgIndexingError e)]
  end.
Proof.
  unfold returned, world_after. rewrite index_words_to_auto_search_run.
  cbn [fst snd]. unfold bulk_outcome, bulk_log, extend. cbn [w_log].
  destruct (bulk_reply srv) as [response|e]; [|done].
  split; [done|]. destruct (errors response); [|done].
  by rewrite item_error_lines.
Qed.

(** X18: when the bulk call fails, the pipeline fails with the same
    error; the bulk call was made once, and the last two log lines are the
    errors logged by the write step and by the pipeline. *)
Theorem bulk_failure_aborts_pipeline source_index sentence_fields
    target_index pos_filter scroll_id hits e w :
  search_reply srv = Ok (scroll_id, hits) ->
  bulk_reply srv = Raise e ->
  corpus_records pos_filter (corpus_sentences sentence_fields hits) <> [] ->
  returned (process_words_from_source_index source_index sentence_fields
              target_index pos_filter) w = Raise e /\
  length (List.filter is_bulk_call
            (w_calls (world_after
                        (process_words_from_source_index source_index
                           sentence_fields target_index pos_filter) w))) =
  S (length (List.filter is_bulk_call (w_calls w))) /\
  exists lines,
    w_log (world_after
             (process_words_from_source_index source_index sentence_fields
                target_index pos_filter) w) =
    w_log w ++ lines ++
    [(ERROR, MsgIndexingError e); (ERROR, MsgPipelineError e)].
Proof.
  intros Hsearch Hbulk Hwords. unfold returned, world_after.
  rewrite (process_words_run _ _ _ _ _ _ _ Hsearch).
  destruct (corpus_records pos_filter
              (corpus_sentences sentence_fields hits)) as [|r words];
    [done|].
  cbn [fst snd write_outcome write_log write_calls].
  unfold bulk_outcome, bulk_log, extend. rewrite Hbulk. cbn [w_log w_calls].
  split; [done|]. split.
  - rewrite !List.filter_app, index_calls_no_bulk.
    cbn [List.filter is_bulk_call app]. rewrite length_app. simpl. lia.
  - exists ([(INFO, MsgExtracting source_index)] ++
            index_log sentence_fields pos_filter hits ++
            [(INFO, MsgIndexing target_index)]).
    f_equal. same_lists.
Qed.

(** X19: a run of the pipeline makes at most one bulk call, and makes one
    exactly when the extraction step returned a non-empty list. *)
Theorem at_most_one_bulk_call source_index sentence_fields target_index
    pos_filter w :
  exists n,
    (n <= 1)%nat /\
    length (List.filter is_bulk_call
              (w_calls (world_after
                          (process_words_from_source_index source_index
                             sentence_fields target_index pos_filter) w))) =
    (length (List.filter is_bulk_call (w_calls w)) + n)%nat /\
    (n = 1%nat <->
     exists words,
       returned (extract_words_from_index source_index sentence_fields
                   pos_filter) w = Ok words /\ words <> []).
Proof.
  unfold returned, world_after.
  destruct (search_reply srv) as [[scroll_id hits]|e] eqn:E.
  - rewrite (extract_words_from_index_run _ _ _ _ _ _ E).
    rewrite (process_words_run _ _ _ _ _ _ _ E). cbn [fst snd].
    unfold extend. cbn [w_calls].
    rewrite !List.filter_app, index_calls_no_bulk. cbn [app].
    destruct (corpus_records pos_filter
                (corpus_sentences sentence_fields hits)) as [|r words].
    + exists 0%nat. cbn [write_calls List.filter].
      rewrite app_nil_r. split; [lia|]. split; [lia|].
      split; [done|]. by intros (words & [= <-] & Hne).
    + exists 1%nat. cbn [write_calls List.filter is_bulk_call].
      rewrite length_app. split; [lia|]. split; [done|].
      split; [|done]. intros _. by eexists.
  - rewrite (extract_words_from_index_raise _ _ _ _ _ E).
    rewrite (process_words_raise _ _ _ _ _ _ E). cbn [fst snd].
    unfold extend. cbn [w_calls].
    rewrite List.filter_app. cbn [List.filter is_bulk_call].
    exists 0%nat. rewrite app_nil_r. split; [lia|]. split; [lia|].
    split; [done|]. by intros (words & [=] & _).
Qed.

(** ** The in-memory pipeline of [morpheme_test.py] *)

Lemma demo_append_word_data_run words sentence all_words w :
  demo_append_word_data words sentence all_words w =
  (Ok (all_words ++
       map (fun x => WordData x (extract_choseong_spec x) (Some (len x))
                       (Some sentence)) words), w).
Proof.
  revert all_words. induction words as [|x words IH]; intros all_words.
  - simpl. unfold ret. by rewrite app_nil_r.
  - cbn [demo_append_word_data]. unfold bind, lift.
    rewrite extract_choseong_refines, IH. simpl. by rewrite <- app_assoc.
Qed.

Lemma demo_sentences_run sentences all_words w :
  for_each sentences demo_sentence all_words w =
  (Ok (all_words ++ demo_records sentences),
   extend (flat_map sentence_log sentences) [] w).
Proof.
  revert all_words w.
  induction sentences as [|s sentences IH]; intros all_words w.
  - simpl. unfold ret, demo_records. simpl.
    by rewrite app_nil_r, extend_nil.
  - cbn [for_each]. unfold demo_sentence at 1.
    erewrite bind_run_ok;
      [|erewrite bind_run_ok by apply extract_words_from_sentence_run;
        apply demo_append_word_data_run].
    rewrite IH, extend_extend. unfold demo_records. cbn [flat_map app].
    by rewrite <- app_assoc.
Qed.

Lemma test_complete_pipeline_run sample_sentences w :
  test_complete_pipeline sample_sentences w =
  (Ok (unique_words_loop (demo_records sample_sentences) ∅),
   extend (flat_map sentence_log sample_sentences) [] w).
Proof.
  unfold test_complete_pipeline.
  erewrite bind_run_ok by apply demo_sentences_run. done.
Qed.

Lemma head_filter_word_map x s (ws : list (list Z)) :
  NoDup ws ->
  head (List.filter (fun r => bool_decide (word r = x))
          (map (fun y => WordData y (extract_choseong_spec y)
                           (Some (len y)) (Some s)) ws)) =
  if bool_decide (x ∈ ws)
  then Some (WordData x (extract_choseong_spec x) (Some (len x)) (Some s))
  else None.
Proof.
  induction 1 as [|y ws Hy Hnd IH]; [done|]. cbn [map List.filter word].
  destruct (decide (y = x)) as [->|Hne].
  - rewrite bool_decide_eq_true_2 by done.
    rewrite (bool_decide_eq_true_2 (x ∈ x :: ws)) by by left. done.
  - rewrite bool_decide_eq_false_2 by done. rewrite IH.
    assert (bool_decide (x ∈ y :: ws) = bool_decide (x ∈ ws)) as ->; [|done].
    apply bool_decide_ext. rewrite elem_of_cons.
    split; [intros [->|?]; [by destruct Hne|done]|by right].
Qed.

Lemma head_app_filter {A} (p : A -> bool) l1 l2 :
  head (List.filter p (l1 ++ l2)) =
  match head (List.filter p l1) with
  | Some r => Some r
  | None => head (List.filter p l2)
  end.
Proof.
  rewrite List.filter_app. by destruct (List.filter p l1).
Qed.

(** X20: [test_complete_pipeline] keeps for each word the dictionary of
    its first occurrence: the entry of a word in [unique_words] carries
    the first sample sentence whose extraction yields the word, the length
    of the word and its choseong; words that no sentence yields have no
    entry. *)
Theorem test_complete_pipeline_first_sentence sample_sentences w x :
  exists unique_words,
    returned (test_complete_pipeline sample_sentences) w = Ok unique_words /\
    unique_words !! x =
    match List.find
            (fun s => bool_decide
                        (x ∈ sentence_words s (Some noun_verb_adjective)))
            sample_sentences with
    | Some s => Some (WordData x (extract_choseong_spec x) (Some (len x))
                        (Some s))
    | None => None
    end.
Proof.
  eexists. unfold returned. rewrite test_complete_pipeline_run.
  split; [done|]. rewrite unique_words_loop_lookup, lookup_empty.
  induction sample_sentences as [|s sentences IH]; [done|].
  unfold demo_records in *. cbn [flat_map List.find].
  rewrite head_app_filter, head_filter_word_map
    by apply sentence_words_NoDup.
  by destruct (bool_decide (x ∈ sentence_words s (Some noun_verb_adjective))).
Qed.

Lemma head_filter_Some {A} (p : A -> bool) l r :
  head (List.filter p l) = Some r -> In r l /\ p r = true.
Proof.
  intros H. apply filter_In.
  destruct (List.filter p l) as [|y k]; [done|].
  injection H as ->. by left.
Qed.

Lemma head_filter_is_Some {A} (p : A -> bool) l :
  is_Some (head (List.filter p l)) <-> exists r, In r l /\ p r = true.
Proof.
  split.
  - intros [r Hr]. exists r. by apply head_filter_Some.
  - intros (r & Hr). apply filter_In in Hr.
    destruct (List.filter p l) as [|y k]; [done|]. by eexists.
Qed.

(** X21: the dictionary built by the deduplication loop has exactly the
    words of the list as keys, stores under each key a dictionary of the
    list that is about that word, and so has as many entries as there are
    distinct words. *)
Theorem unique_words_loop_keys all_words :
  (forall k, is_Some (unique_words_loop all_words ∅ !! k) <->
             In k (map word all_words)) /\
  (forall k r, unique_words_loop all_words ∅ !! k = Some r ->
               word r = k /\ In r all_words) /\
  size (unique_words_loop all_words ∅) =
  size (list_to_set (map word all_words) : gset (list Z)).
Proof.
  assert (forall k, is_Some (unique_words_loop all_words ∅ !! k) <->
                    In k (map word all_words)) as Hkeys.
  { intros k. rewrite unique_words_loop_lookup, lookup_empty.
    rewrite head_filter_is_Some, in_map_iff.
    split; intros (r & H1 & H2); exists r.
    - split; [by apply bool_decide_eq_true in H2|done].
    - split; [done|by apply bool_decide_eq_true]. }
  split; [exact Hkeys|]. split.
  - intros k r. rewrite unique_words_loop_lookup, lookup_empty.
    intros [Hin Hw]%head_filter_Some.
    split; [by apply bool_decide_eq_true in Hw|done].
  - rewrite <- size_dom. f_equal. apply set_eq. intros k.
    rewrite elem_of_dom, Hkeys, elem_of_list_to_set.
    symmetry. apply list_elem_of_In.
Qed.

(** X24: the deduplication loop never replaces an entry: a word that is
    already in the dictionary keeps its dictionary whatever the list holds,
    and a word that is not gets the first dictionary of the list that is
    about it. *)
Theorem unique_words_loop_never_overwrites (all_words : list word_data)
    (unique_words : gmap (list Z) word_data) :
  (forall k r, unique_words !! k = Some r ->
               unique_words_loop all_words unique_words !! k = Some r) /\
  (forall k, unique_words !! k = None ->
             unique_words_loop all_words unique_words !! k =
             head (List.filter (fun r => bool_decide (word r = k))
                     all_words)) /\
  (forall before r after,
     all_words = before ++ r :: after ->
     (forall r', In r' before -> word r' <> word r) ->
     unique_words !! word r = None ->
     unique_words_loop all_words unique_words !! word r = Some r).
Proof.
  split; [|split].
  - intros k r Hk. by rewrite unique_words_loop_lookup, Hk.
  - intros k Hk. by rewrite unique_words_loop_lookup, Hk.
  - intros before r after -> Hbefore Hnone.
    rewrite unique_words_loop_lookup, Hnone, head_app_filter.
    replace (List.filter (fun r0 => bool_decide (word r0 = word r)) before)
      with (@nil word_data).
    + cbn [head List.filter]. by rewrite bool_decide_eq_true_2.
    + symmetry. clear -Hbefore.
      induction before as [|r' before IH]; [done|]. cbn [List.filter].
      rewrite bool_decide_eq_false_2 by (apply Hbefore; by left).
      apply IH. intros r'' Hin. apply Hbefore. by right.
Qed.

(** ** Analyzer initialisation *)

Lemma backend_name_cases (t : list Z) :
  (exists b, t = backend_name b) \/ (forall b, t <> backend_name b).
Proof.
  destruct (decide (t = okt)) as [->|?]; [left; by exists Okt|].
  destruct (decide (t = komoran)) as [->|?]; [left; by exists Komoran|].
  destruct (decide (t = hannanum)) as [->|?]; [left; by exists Hannanum|].
  destruct (decide (t = kkma)) as [->|?]; [left; by exists Kkma|].
  destruct (decide (t = mecab)) as [->|?]; [left; by exists Mecab|].
  right. by intros [].
Qed.

Lemma _initialize_analyzer_supported b :
  _initialize_analyzer (backend_name b) =
  match construct b with
  | Ok _ => (Ok b, [])
  | Raise e => (new_backend Okt, [(ERROR, MsgInitFailed e)])
  end.
Proof.
  unfold _initialize_analyzer, new_backend.
  destruct b; cbn [backend_name];
    repeat (rewrite bool_decide_eq_false_2 by done);
    rewrite bool_decide_eq_true_2 by done;
    match goal with |- context [construct ?b] =>
      by destruct (construct b) end.
Qed.

Lemma _initialize_analyzer_unsupported t :
  (forall b, t <> backend_name b) ->
  _initialize_analyzer t =
  match construct Okt with
  | Ok _ => (Ok Okt, [(WARNING, MsgUnsupportedAnalyzer t)])
  | Raise e =>
      (new_backend Okt,
       [(WARNING, MsgUnsupportedAnalyzer t); (ERROR, MsgInitFailed e)])
  end.
Proof.
  intros Hno. unfold _initialize_analyzer.
  rewrite (bool_decide_eq_false_2 _ (Hno Okt)).
  rewrite (bool_decide_eq_false_2 _ (Hno Komoran)).
  rewrite (bool_decide_eq_false_2 _ (Hno Hannanum)).
  rewrite (bool_decide_eq_false_2 _ (Hno Kkma)).
  rewrite (bool_decide_eq_false_2 _ (Hno Mecab)).
  unfold new_backend. by destruct (construct Okt).
Qed.

(** X22: [_initialize_analyzer] falls back to Okt.  A supported name whose
    class can be built gives that class and logs nothing; when the class
    cannot be built, one error is logged and Okt is built instead; an
    unsupported name gives Okt with one warning; and the function raises
    only an error of [Okt()] itself. *)
Theorem initialize_analyzer_falls_back_to_okt t :
  (forall b u, t = backend_name b -> construct b = Ok u ->
               _initialize_analyzer t = (Ok b, [])) /\
  (forall b e u, t = backend_name b -> construct b = Raise e ->
                 construct Okt = Ok u ->
                 _initialize_analyzer t =
                 (Ok Okt, [(ERROR, MsgInitFailed e)])) /\
  ((forall b, t <> backend_name b) ->
   forall u, construct Okt = Ok u ->
             _initialize_analyzer t =
             (Ok Okt, [(WARNING, MsgUnsupportedAnalyzer t)])) /\
  (forall e, fst (_initialize_analyzer t) = Raise e ->
             construct Okt = Raise e).
Proof.
  split; [|split; [|split]].
  - intros b u -> Hb. by rewrite _initialize_analyzer_supported, Hb.
  - intros b e u -> Hb Hokt.
    rewrite _initialize_analyzer_supported, Hb. unfold new_backend.
    by rewrite Hokt.
  - intros Hno u Hokt. rewrite _initialize_analyzer_unsupported by done.
    by rewrite Hokt.
  - intros e. destruct (backend_name_cases t) as [[b ->]|Hno].
    + rewrite _initialize_analyzer_supported.
      destruct (construct b) as [u|e'] eqn:Hb; [done|].
      unfold new_backend. cbn [fst].
      destruct (construct Okt) as [u|e'']; [done|]. by intros [= ->].
    + rewrite _initialize_analyzer_unsupported by done.
      unfold new_backend.
      destruct (construct Okt) as [u|e'']; [done|]. by intros [= ->].
Qed.

End Indexer.

(** * Runs on the sample data *)

Local Abbreviation run_pipeline pos server :=
  (process_words_from_source_index no_row no_row no_row same_row okt pos
     server project [title] auto_search None).

Local Abbreviation run_extraction pos server :=
  (extract_words_from_index no_row no_row no_row same_row okt pos
     server project [title] None).

(** The claim C1 fails on a collection of two documents titled "ab": the
    bulk write receives two dictionaries for "ab". *)
Lemma duplicate_word_reaches_bulk_write :
  exists words,
    returned (run_extraction silent_pos two_docs_server) (World [] []) =
    Ok words /\
    In (CallBulk (bulk_lines auto_search words))
      (w_calls (world_after (run_pipeline silent_pos two_docs_server)
                  (World [] []))) /\
    ~ each_word_once words.
Proof.
  exists [WordData ab ab None None; WordData ab ab None None].
  split; [vm_compute; reflexivity|]. split.
  - vm_compute. tauto.
  - intros Honce. specialize (Honce ab). vm_compute in Honce. lia.
Qed.

Lemma extract_words_from_index_keeps_duplicates_witness :
  search_reply two_docs_server = Ok (1, [doc_ab; doc_ab]) /\
  exists words,
    returned (run_extraction silent_pos two_docs_server) (World [] []) =
    Ok words /\
    occurrences ab words = 2%nat.
Proof.
  split; [reflexivity|].
  destruct (extract_words_from_index_keeps_duplicates no_row no_row no_row
              same_row okt silent_pos two_docs_server project [title]
              auto_search None 1 [doc_ab; doc_ab] (World [] []) eq_refl)
    as (words & Hret & _ & Hocc & _).
  exists words. split; [exact Hret|].
  rewrite Hocc. vm_compute. reflexivity.
Defined.

(** The claim C3 fails when the analyzer call fails on a sentence with an
    English word, and when a scroll call fails: the pipeline returns
    normally and the bulk write is made. *)
Lemma analyzer_or_scroll_failure_does_not_abort :
  pos_reply okt failing_pos ab = Raise (ExternalError 500) /\
  returned (run_pipeline failing_pos one_doc_server) (World [] []) = Ok tt /\
  In (CallBulk [BulkIndexAction auto_search ab; BulkDoc ab ab ab None])
    (w_calls (world_after (run_pipeline failing_pos one_doc_server)
                (World [] []))) /\
  nth_error (scroll_replies flaky_server) 1 =
  Some (Raise (ExternalError 504)) /\
  returned (run_pipeline silent_pos flaky_server) (World [] []) = Ok tt /\
  existsb is_bulk_call
    (w_calls (world_after (run_pipeline silent_pos flaky_server)
                (World [] []))) = true.
Proof.
  split; [vm_compute; reflexivity|].
  split; [vm_compute; reflexivity|].
  split; [vm_compute; tauto|].
  split; [vm_compute; reflexivity|].
  split; vm_compute; reflexivity.
Qed.

Lemma search_failure_aborts_witness :
  search_reply down_server = Raise (ExternalError 503) /\
  returned (run_pipeline silent_pos down_server) (World [] []) =
  Raise (ExternalError 503) /\
  List.filter is_bulk_call
    (w_calls (world_after (run_pipeline silent_pos down_server)
                (World [] []))) = [].
Proof.
  split; [reflexivity|].
  unfold returned, world_after.
  rewrite (proj1 (search_failure_aborts_analyzer_failure_absorbed no_row
                    no_row no_row same_row okt silent_pos down_server)
             project [title] auto_search None (ExternalError 503)
             (World [] []) eq_refl).
  split; reflexivity.
Defined.

Lemma emitted_words_are_valid_witness :
  returned (run_extraction silent_pos one_doc_server) (World [] []) =
  Ok [WordData ab ab None None] /\
  valid_word no_row ab.
Proof.
  assert (returned (run_extraction silent_pos one_doc_server) (World [] []) =
          Ok [WordData ab ab None None]) as Hret by (vm_compute; reflexivity).
  split; [exact Hret|].
  apply (proj1 (proj2 (emitted_words_are_valid no_row no_row no_row same_row
                         okt silent_pos one_doc_server))
           project [title] None (World [] []) _ Hret
           (WordData ab ab None None)).
  constructor.
Defined.

Lemma extract_choseong_symbol_witness :
  hangul_syllable 44032 = true /\
  exists x, In x choseong_list /\
            extract_choseong no_row same_row [44032] = Ok [x].
Proof.
  split; [reflexivity|].
  apply (proj1 (extract_choseong_symbol_idempotent no_row same_row) 44032).
  reflexivity.
Defined.

Lemma scroll_failure_ends_paging_witness :
  search_reply flaky_server = Ok (1, [doc_ab]) /\
  scroll_replies flaky_server =
  map Ok [[doc_ab]] ++ Raise (ExternalError 504) :: [Ok [doc_ab]] /\
  returned (run_pipeline silent_pos flaky_server) (World [] []) = Ok tt /\
  length (List.filter is_scroll_call
            (w_calls (world_after (run_pipeline silent_pos flaky_server)
                        (World [] [])))) = 2%nat.
Proof.
  split; [reflexivity|]. split; [reflexivity|].
  destruct (scroll_failure_ends_paging no_row no_row no_row same_row okt
              silent_pos flaky_server project [title] auto_search None 1
              [doc_ab] [[doc_ab]] (ExternalError 504) [Ok [doc_ab]]
              (World [] []) eq_refl eq_refl)
    as (_ & Hret & Hcalls).
  - discriminate.
  - repeat constructor. discriminate.
  - rewrite Hret, Hcalls. split; vm_compute; reflexivity.
Defined.

Lemma extract_words_from_sentence_is_a_set_witness :
  exists ws,
    returned (extract_words_from_sentence no_row no_row no_row same_row okt
                silent_pos [97; 98; 32; 97; 98] None) (World [] []) =
    Ok ws /\
    length (List.filter (fun y => bool_decide (y = ab)) ws) = 1%nat.
Proof.
  destruct (extract_words_from_sentence_is_a_set no_row no_row no_row
              same_row okt silent_pos [97; 98; 32; 97; 98] None
              (World [] []))
    as (ws & Hret & _ & Henglish & _).
  exists ws. split; [exact Hret|].
  apply Henglish; [reflexivity|].
  vm_compute. constructor.
Defined.

Lemma empty_word_set_skips_write_witness :
  returned (run_extraction silent_pos empty_server) (World [] []) = Ok [] /\
  returned (run_pipeline silent_pos empty_server) (World [] []) = Ok tt /\
  List.filter is_bulk_call
    (w_calls (world_after (run_pipeline silent_pos empty_server)
                (World [] []))) = [] /\
  last (w_log (world_after (run_pipeline silent_pos empty_server)
                 (World [] []))) = Some (WARNING, MsgNothingToProcess).
Proof.
  assert (returned (run_extraction silent_pos empty_server) (World [] []) =
          Ok []) as Hret by (vm_compute; reflexivity).
  split; [exact Hret|].
  apply (proj1 (proj2 (empty_word_set_skips_write no_row no_row no_row
                         same_row okt silent_pos empty_server))
           project [title] auto_search None (World [] []) Hret).
Defined.

Lemma third_check_witness :
  korean_pattern_search [50504; 45397] = true /\
  only_other_match [50504; 45397] = false.
Proof.
  split; [reflexivity|].
  apply (proj2 is_valid_korean_word_two_checks). reflexivity.
Defined.

Lemma is_valid_english_word_any_alphabet_witness :
  2 <= len [50504; 45397] <= 50 /\
  forallb (isalpha_cp no_row) [50504; 45397] = true /\
  is_valid_english_word no_row [50504; 45397] = true.
Proof.
  split; [unfold len; simpl; lia|]. split; [reflexivity|].
  apply (proj1 (is_valid_english_word_any_alphabet no_row)).
  - unfold len. simpl. lia.
  - reflexivity.
Defined.

(** * Further properties over two servers *)

(** X23: a failing clear-scroll call changes nothing: two servers that
    differ only in their answer to it give the same result, the same log
    and the same calls, for the extraction step and for the pipeline. *)
Theorem clear_scroll_failure_is_swallowed ucd_alpha ucd_numeric ucd_space
    ucd_lower analyzer_type analyzer_pos search scroll clear clear' bulk
    source_index sentence_fields target_index pos_filter w :
  extract_words_from_index ucd_alpha ucd_numeric ucd_space ucd_lower
    analyzer_type analyzer_pos (Server search scroll clear bulk)
    source_index sentence_fields pos_filter w =
  extract_words_from_index ucd_alpha ucd_numeric ucd_space ucd_lower
    analyzer_type analyzer_pos (Server search scroll clear' bulk)
    source_index sentence_fields pos_filter w /\
  process_words_from_source_index ucd_alpha ucd_numeric ucd_space ucd_lower
    analyzer_type analyzer_pos (Server search scroll clear bulk)
    source_index sentence_fields target_index pos_filter w =
  process_words_from_source_index ucd_alpha ucd_numeric ucd_space ucd_lower
    analyzer_type analyzer_pos (Server search scroll clear' bulk)
    source_index sentence_fields target_index pos_filter w.
Proof.
  destruct search as [[scroll_id hits]|e].
  - split.
    + rewrite (extract_words_from_index_run _ _ _ _ _ _
                 (Server (Ok (scroll_id, hits)) scroll clear bulk)
                 _ _ _ scroll_id hits w eq_refl).
      rewrite (extract_words_from_index_run _ _ _ _ _ _
                 (Server (Ok (scroll_id, hits)) scroll clear' bulk)
                 _ _ _ scroll_id hits w eq_refl).
      reflexivity.
    + rewrite (process_words_run _ _ _ _ _ _
                 (Server (Ok (scroll_id, hits)) scroll clear bulk)
                 _ _ _ _ scroll_id hits w eq_refl).
      rewrite (process_words_run _ _ _ _ _ _
                 (Server (Ok (scroll_id, hits)) scroll clear' bulk)
                 _ _ _ _ scroll_id hits w eq_refl).
      reflexivity.
  - split.
    + rewrite (extract_words_from_index_raise _ _ _ _ _ _
                 (Server (Raise e) scroll clear bulk) _ _ _ e w eq_refl).
      rewrite (extract_words_from_index_raise _ _ _ _ _ _
                 (Server (Raise e) scroll clear' bulk) _ _ _ e w eq_refl).
      reflexivity.
    + rewrite (process_words_raise _ _ _ _ _ _
                 (Server (Raise e) scroll clear bulk) _ _ _ _ e w eq_refl).
      rewrite (process_words_raise _ _ _ _ _ _
                 (Server (Raise e) scroll clear' bulk) _ _ _ _ e w
                 eq_refl).
      reflexivity.
Qed.

(** * Further runs on the sample data *)

Lemma same_choseong_same_block_witness :
  hangul_syllable 44032 = true /\ hangul_syllable 44619 = true /\
  extract_choseong no_row same_row [44032] =
  extract_choseong no_row same_row [44619].
Proof.
  split; [reflexivity|]. split; [reflexivity|].
  apply (same_choseong_same_block no_row same_row 44032 44619);
    reflexivity.
Defined.

Lemma english_words_are_delimited_runs_witness :
  In ab (_extract_english_words no_row no_row same_row
           [49; 32; 65; 98; 44]) /\
  exists pre m post,
    [49; 32; 65; 98; 44] = pre ++ m ++ post /\
    ab = map ascii_to_lower m /\
    forallb ascii_letter m = true /\
    2 <= len m <= 50 /\
    opt_word_char no_row no_row (last pre) = false /\
    opt_word_char no_row no_row (head post) = false.
Proof.
  assert (In ab (_extract_english_words no_row no_row same_row
                   [49; 32; 65; 98; 44])) as Hin by (vm_compute; tauto).
  split; [exact Hin|].
  exact (english_words_are_delimited_runs no_row no_row same_row _ _ Hin).
Defined.

Lemma english_words_are_their_own_choseong_witness :
  In ab (_extract_english_words no_row no_row same_row
           [49; 32; 65; 98; 44]) /\
  is_valid_korean_word ab = false /\
  extract_choseong no_row same_row ab = Ok ab.
Proof.
  assert (In ab (_extract_english_words no_row no_row same_row
                   [49; 32; 65; 98; 44])) as Hin by (vm_compute; tauto).
  split; [exact Hin|].
  exact (english_words_are_their_own_choseong no_row no_row same_row _ _
           Hin).
Defined.

Lemma extract_words_from_index_summary_witness :
  search_reply two_docs_server = Ok (1, [doc_ab; doc_ab]) /\
  last (w_log (world_after (run_extraction silent_pos two_docs_server)
                 (World [] []))) =
  Some (INFO, MsgExtractSummary 2 2).
Proof.
  split; [reflexivity|].
  destruct (extract_words_from_index_summary no_row no_row no_row same_row
              okt silent_pos two_docs_server project [title] None 1
              [doc_ab; doc_ab] (World [] []) eq_refl)
    as (words & Hret & Hlast).
  rewrite Hlast. vm_compute in Hret. injection Hret as <-.
  vm_compute. reflexivity.
Defined.

Lemma documents_without_sentences_witness :
  search_reply two_docs_server = Ok (1, [doc_ab; doc_ab]) /\
  doc_ab !! project = None /\
  returned (extract_words_from_index no_row no_row no_row same_row okt
              silent_pos two_docs_server project [project] None)
    (World [] []) = Ok [] /\
  returned (process_words_from_source_index no_row no_row no_row same_row
              okt silent_pos two_docs_server project [project] auto_search
              None) (World [] []) = Ok tt.
Proof.
  split; [reflexivity|].
  assert (doc_ab !! project = None) as Hnone by (vm_compute; reflexivity).
  split; [exact Hnone|].
  destruct (documents_without_sentences_give_nothing no_row no_row no_row
              same_row okt silent_pos two_docs_server project [project]
              auto_search None 1 [doc_ab; doc_ab] (World [] []) eq_refl)
    as (Hextract & Hrun & _).
  - intros source f Hsource Hf. left.
    destruct Hf as [<-|[]].
    destruct Hsource as [<-|[<-|[]]]; exact Hnone.
  - split; [exact Hextract|exact Hrun].
Defined.

Lemma bulk_failure_aborts_pipeline_witness :
  search_reply bulk_down_server = Ok (1, [doc_ab]) /\
  bulk_reply bulk_down_server = Raise (ExternalError 502) /\
  returned (run_pipeline silent_pos bulk_down_server) (World [] []) =
  Raise (ExternalError 502).
Proof.
  split; [reflexivity|]. split; [reflexivity|].
  apply (bulk_failure_aborts_pipeline no_row no_row no_row same_row okt
           silent_pos bulk_down_server project [title] auto_search None 1
           [doc_ab] (ExternalError 502) (World [] []) eq_refl eq_refl).
  vm_compute. discriminate.
Defined.

Lemma initialize_analyzer_witness :
  only_okt Komoran = Raise (ExternalError 1) /\
  _initialize_analyzer only_okt komoran =
  (Ok Okt, [(ERROR, MsgInitFailed (ExternalError 1))]).
Proof.
  split; [reflexivity|].
  apply (proj1 (proj2 (initialize_analyzer_falls_back_to_okt only_okt
                         komoran)) Komoran (ExternalError 1) tt);
    reflexivity.
Defined.
